(** * LIT selection toolbar and slice editor

    A shallow embedding of the event handlers of
    [lit_nlp/client/modules/selection_toolbar.ts] and
    [lit_nlp/client/modules/slice_module.ts], with the services they
    consume, and the properties of their handlers. *)

From Stdlib Require Import ZArith Lia.
From stdpp Require Import base decidable option list strings relations.

Local Open Scope Z_scope.

(** ** JavaScript values used by the handlers *)

Module JS.

(** [Set.prototype.add]: a set iterates in insertion order and adding a
    member again leaves it where it is. *)
Definition set_add (x : string) (s : list string) : list string :=
  if decide (x ∈ s) then s else s ++ [x].

(** [new Set(ids)], [ids.forEach(id => set.add(id))]. *)
Definition set_of (ids : list string) : list string :=
  foldl (λ s x, set_add x s) [] ids.

(** [Set.prototype.delete]. *)
Definition set_delete (x : string) (s : list string) : list string :=
  filter (λ y, y ≠ x) s.

(** [Array.prototype.findIndex]: the first index whose element passes the
    test, [-1] when there is none. *)
Fixpoint findIndex_from {A} (p : A → bool) (l : list A) (i : Z) : Z :=
  match l with
  | [] => -1
  | x :: l' => if p x then i else findIndex_from p l' (i + 1)
  end.

Definition findIndex {A} (p : A → bool) (l : list A) : Z :=
  findIndex_from p l 0.

(** [a % b] on integers: the remainder takes the sign of the dividend;
    [None] is [NaN], the result for a zero divisor. *)
Definition rem (a b : Z) : option Z :=
  if decide (b = 0) then None else Some (Z.rem a b).

(** [arr[i]]: [None] is [undefined], the result outside the array. *)
Definition at_index {A} (l : list A) (i : Z) : option A :=
  if decide (0 ≤ i) then l !! Z.to_nat i else None.

(** The two kinds of value that [createButtonEnabled] can return. *)
Inductive value :=
| VBool (b : bool)
| VNum (n : Z).

(** [ToBoolean]. *)
Definition truthy (v : value) : bool :=
  match v with
  | VBool b => b
  | VNum n => negb (n =? 0)
  end.

(** [a && b] and [a || b] return one of their operands. *)
Definition and (a b : value) : value := if truthy a then b else a.
Definition or (a b : value) : value := if truthy a then a else b.

(** Truthiness of a string that may be absent: [undefined], [null] and
    the empty string are falsy. *)
Definition truthy_string (v : option string) : Prop :=
  match v with
  | Some s => s ≠ ""
  | None => False
  end.

#[global] Instance truthy_string_dec v : Decision (truthy_string v).
Proof. destruct v; simpl; apply _. Defined.

(** A [Map] from names to values, in insertion order. [Map.prototype.get]. *)
Fixpoint map_get {A} (k : string) (m : list (string * A)) : option A :=
  match m with
  | [] => None
  | (k', v) :: m' => if decide (k' = k) then Some v else map_get k m'
  end.

(** [Map.prototype.set]: a key that is present keeps its place. *)
Fixpoint map_set {A} (k : string) (v : A) (m : list (string * A))
  : list (string * A) :=
  match m with
  | [] => [(k, v)]
  | (k', v') :: m' =>
      if decide (k' = k) then (k', v) :: m' else (k', v') :: map_set k v m'
  end.

(** [Map.prototype.delete]. *)
Definition map_delete {A} (k : string) (m : list (string * A))
  : list (string * A) :=
  filter (λ e, e.1 ≠ k) m.

End JS.

(** ** Data model *)

(** The two entries of a row's [meta] object that the widgets read:
    [meta['parentId']] and [meta['isFavorited']]; [None] is an entry that
    is absent or null. *)
Record Meta := {
  parentId : option string;
  isFavorited : option bool;
}.

(** A dataset row ([IndexedInput]). *)
Record IndexedInput := {
  id : string;
  meta : Meta;
}.

(** Modelled from the spec: the application state service (AppState) is
    not among the sources; it "exposes the full current dataset, per-row
    metadata (including parent/child lineage), and an id→index lookup",
    and the comparison-mode flag. *)
Record AppState := {
  currentInputData : list IndexedInput;
  compareExamplesEnabled : bool;
}.

(** Modelled from the spec: the selection service is not among the
    sources; it "holds the ordered set of selected example identifiers and
    a single primary identifier". *)
Record SelectionService := {
  selectedIds : list string;
  primarySelectedId : option string;
}.

(** Modelled from the spec: the slice service is not among the sources;
    it "persists named subsets of identifiers, supports
    create/select/delete"; [sliceNames] is an ordered list, so the slices
    are kept in insertion order as in a JavaScript [Map]. *)
Record SliceService := {
  namedSlices : list (string * list string);
  selectedSliceName : string;
}.

(** The services that the two widgets share: [app.getService(...)], and
    [app.getServiceArray(SelectionService)[1]] for the reference
    selection. *)
Record App := {
  appState : AppState;
  selectionService : SelectionService;
  referenceSelectionService : SelectionService;
  sliceService : SliceService;
}.

(** The toolbar widget with its observable field. *)
Record LitSelectionToolbar := {
  toolbar_app : App;
  highlightFavorite : bool;
}.

(** The slice editor widget with its observable fields. *)
Record SliceModule := {
  module_app : App;
  sliceByFeatures : list string;
  sliceName : string;
}.

(** Modelled from the spec: [flatten] of [lib/utils] is not among the
    sources; it turns a list of lists into the list of their members, as
    in "the full flattened set of pair members". *)
Definition flatten {A} (l : list (list A)) : list A := mjoin l.

(** Modelled from the spec: [compareArrays] of [lib/utils] is not among
    the sources; the toolbar tests its result against 0 to find a pair "by
    ordered-tuple equality". *)
Definition compareArrays_is_0 (a b : string * string) : bool :=
  bool_decide (a = b).

(** An ID pair as the array [[child, parent]]. *)
Definition pairArray (pair : string * string) : list string :=
  [pair.1; pair.2].

(** What the sources import and the spec leaves open. *)
Class Collaborators := {
  (** The reserved name, imported from [services/slice_service]. *)
  FAVORITES_SLICE_NAME : string;
  (** The primary identifier that the selection service designates when
      the selection is replaced, from the old primary and the new
      selection. *)
  primaryAfterSelect : option string → list string → option string;
  (** The selection that the selection service keeps when an identifier
      outside it is made primary. *)
  selectionWithPrimary : list string → string → list string;
  (** [GroupService.groupExamplesByFeatures]: the groups of the rows by
      the checked features, by name, in key order. *)
  groupExamplesByFeatures :
    list IndexedInput → list string → list (string * list IndexedInput);
  (** [SliceService.selectNamedSlice] at a name that is [undefined]: the
      state of the services that the call leaves, [None] if it throws. *)
  selectNamedSliceUndefined : App → option App;
}.

Section Widgets.
Context `{Collaborators}.

(** *** Application state *)

(** Modelled from the spec: [AppState.indicesById] is not among the
    sources, an "id→index lookup"; identifiers are unique per dataset
    row. *)
Definition indicesById (a : AppState) (i : string) : option nat :=
  fst <$> list_find (λ d, id d = i) (currentInputData a).

(** Modelled from the spec: [AppState.getCurrentInputDataById] is not
    among the sources; the row of an identifier, through the "id→index
    lookup". *)
Definition getCurrentInputDataById (a : AppState) (i : string)
  : option IndexedInput :=
  n ← indicesById a i;
  currentInputData a !! n.

(** Modelled from the spec: the parent link that [AppState.getAncestry]
    follows, "following parentId links". *)
Definition parentOf (a : AppState) (i : string) : option string :=
  match list_find (λ d, id d = i) (currentInputData a) with
  | Some (_, d) =>
      if decide (JS.truthy_string (parentId (meta d)))
      then parentId (meta d) else None
  | None => None
  end.

(** The lineage edge child→parent of the data model. *)
Definition parentLink (a : AppState) (child parent : string) : Prop :=
  parentOf a child = Some parent.

Fixpoint ancestryFrom (a : AppState) (fuel : nat) (i : string)
  : list string :=
  match fuel with
  | O => []
  | S fuel' =>
      i :: match parentOf a i with
           | Some p => ancestryFrom a fuel' p
           | None => []
           end
  end.

(** Modelled from the spec: [AppState.getAncestry] is not among the
    sources; "getAncestry(id) -> ordered list of id", the ancestors of
    an identifier, "transitively, following parentId links, inclusive of
    the starting identifiers themselves". A chain of links passes
    through no more rows than the dataset has before it ends or comes
    back to a row already seen. *)
Definition getAncestry (a : AppState) (i : string) : list string :=
  ancestryFrom a (S (length (currentInputData a))) i.

(** *** Selection service *)

(** Modelled from the spec: [SelectionService.selectIds] is not among
    the sources; it replaces the selection, and "duplicates collapse
    automatically because the selection set has unique membership". *)
Definition selectIds (ids : list string) (s : SelectionService)
  : SelectionService :=
  let sel := JS.set_of ids in
  {| selectedIds := sel;
     primarySelectedId := primaryAfterSelect (primarySelectedId s) sel |}.

(** Modelled from the spec: [SelectionService.setPrimarySelection] is
    not among the sources; it designates the primary identifier. *)
Definition setPrimarySelection (i : string) (s : SelectionService)
  : SelectionService :=
  {| selectedIds :=
       if decide (i ∈ selectedIds s) then selectedIds s
       else selectionWithPrimary (selectedIds s) i;
     primarySelectedId := Some i |}.

(** Modelled from the spec: [SelectionService.isIdSelected] is not among
    the sources; "isIdSelected(id) -> bool". *)
Definition isIdSelected (s : SelectionService) (i : string) : bool :=
  bool_decide (i ∈ selectedIds s).

Definition with_selection (f : SelectionService → SelectionService)
    (w : App) : App :=
  {| appState := appState w;
     selectionService := f (selectionService w);
     referenceSelectionService := referenceSelectionService w;
     sliceService := sliceService w |}.

Definition with_reference (f : SelectionService → SelectionService)
    (w : App) : App :=
  {| appState := appState w;
     selectionService := selectionService w;
     referenceSelectionService := f (referenceSelectionService w);
     sliceService := sliceService w |}.

Definition with_slices (f : SliceService → SliceService) (w : App) : App :=
  {| appState := appState w;
     selectionService := selectionService w;
     referenceSelectionService := referenceSelectionService w;
     sliceService := f (sliceService w) |}.

(** The index of the row that holds the primary selection, the
    reference through which the toolbar reads and writes that row. *)
Definition primarySelectedIndex (w : App) : option nat :=
  i ← primarySelectedId (selectionService w);
  indicesById (appState w) i.

(** Modelled from the spec: [SelectionService.primarySelectedInputData]
    is not among the sources; "primarySelectedInputData() -> row|null". *)
Definition primarySelectedInputData (w : App) : option IndexedInput :=
  n ← primarySelectedIndex w;
  currentInputData (appState w) !! n.

(** Modelled from the spec: [SelectionService.selectedOrAllInputData] is
    not among the sources; "selectedOrAllInputData() -> rows", the rows
    of the selection, or of the whole dataset when nothing is selected. *)
Definition selectedOrAllInputData (w : App) : list IndexedInput :=
  match selectedIds (selectionService w) with
  | [] => currentInputData (appState w)
  | ids =>
      omap (getCurrentInputDataById (appState w)) ids
  end.

(** *** Slice service *)

(** Modelled from the spec: [SliceService.sliceNames] is not among the
    sources; "sliceNames() -> ordered list". *)
Definition sliceNames (s : SliceService) : list string :=
  fst <$> namedSlices s.

(** Modelled from the spec: [SliceService.addNamedSlice] is not among
    the sources; a slice is "a name (string, unique among slices) mapped
    to a set of identifiers". *)
Definition addNamedSlice (name : string) (ids : list string)
    (s : SliceService) : SliceService :=
  {| namedSlices := JS.map_set name (JS.set_of ids) (namedSlices s);
     selectedSliceName := selectedSliceName s |}.

(** Modelled from the spec: [SliceService.deleteNamedSlice] is not among
    the sources; it removes the slice, and "one slice name is reserved
    (favorites) and cannot be deleted". *)
Definition deleteNamedSlice (name : string) (s : SliceService)
  : SliceService :=
  if decide (name = FAVORITES_SLICE_NAME) then s
  else {| namedSlices := JS.map_delete name (namedSlices s);
          selectedSliceName := selectedSliceName s |}.

(** Modelled from the spec: [SliceService.addIdsToSlice] is not among
    the sources; it adds the identifiers to the set of the slice. *)
Definition addIdsToSlice (name : string) (ids : list string)
    (s : SliceService) : SliceService :=
  match JS.map_get name (namedSlices s) with
  | Some members =>
      {| namedSlices :=
           JS.map_set name (foldl (λ m x, JS.set_add x m) members ids)
             (namedSlices s);
         selectedSliceName := selectedSliceName s |}
  | None => s
  end.

(** Modelled from the spec: [SliceService.removeIdsFromSlice] is not
    among the sources; it removes the identifiers from the set of the
    slice. *)
Definition removeIdsFromSlice (name : string) (ids : list string)
    (s : SliceService) : SliceService :=
  match JS.map_get name (namedSlices s) with
  | Some members =>
      {| namedSlices :=
           JS.map_set name (foldl (λ m x, JS.set_delete x m) members ids)
             (namedSlices s);
         selectedSliceName := selectedSliceName s |}
  | None => s
  end.

(** Modelled from the spec: [SliceService.selectNamedSlice] is not among
    the sources; it "sets the named slice as active and replaces current
    selection with its membership; selecting the empty name clears the
    active-slice indicator without clearing selection indiscriminately". *)
Definition selectNamedSlice (name : string) (w : App) : App :=
  let w' :=
    with_slices (λ s, {| namedSlices := namedSlices s;
                         selectedSliceName := name |}) w in
  match JS.map_get name (namedSlices (sliceService w)) with
  | Some members => with_selection (selectIds members) w'
  | None => w'
  end.

(** The membership of the favorites slice, [None] if there is no such
    slice. *)
Definition favoritesMembers (w : App) : option (list string) :=
  JS.map_get FAVORITES_SLICE_NAME (namedSlices (sliceService w)).

(** *** Selection toolbar ([selection_toolbar.ts]) *)

(** [selectedIdPairs]: ID pairs, as [child, parent], from the current
    selection or the whole dataset. *)
Definition selectedIdPairs (w : App) : list (string * string) :=
  let data := selectedOrAllInputData w in
  omap (λ d, p ← parentId (meta d); Some (id d, p))
    (filter (λ d, JS.truthy_string (parentId (meta d))) data).

(** [findAllParents]: the ancestry includes the current point, and the
    result may contain duplicates. *)
Definition findAllParents (w : App) : list string :=
  let allAncestors :=
    flatten (getAncestry (appState w) <$> selectedIds (selectionService w)) in
  allAncestors.

(** [findAllChildren]: all datapoints with an ancestor in the selected
    list are added to the set of the selected identifiers. *)
Definition findAllChildren (w : App) : list string :=
  let ids := JS.set_of (selectedIds (selectionService w)) in
  foldl
    (λ ids d,
       foldl
         (λ ids ancestorId,
            if isIdSelected (selectionService w) ancestorId
            then JS.set_add (id d) ids else ids)
         ids (getAncestry (appState w) (id d)))
    ids (currentInputData (appState w)).

Definition selectRelated (w : App) : App :=
  with_selection (selectIds (findAllParents w ++ findAllChildren w)) w.

(** The write [data.meta['isFavorited'] = b] to the row at an index of
    the dataset. *)
Definition setFavorited (n : nat) (b : bool) (a : AppState) : AppState :=
  {| currentInputData :=
       alter (λ d, {| id := id d;
                      meta := {| parentId := parentId (meta d);
                                 isFavorited := Some b |} |})
         n (currentInputData a);
     compareExamplesEnabled := compareExamplesEnabled a |}.

(** [toggleFavorited]: [data] is the row of the dataset that
    [primarySelectedInputData] returns, so the write to [data.meta] is a
    write to the row at [primarySelectedIndex]. *)
Definition toggleFavorited (t : LitSelectionToolbar) : LitSelectionToolbar :=
  let w := toolbar_app t in
  match primarySelectedIndex w with
  | None => t
  | Some n =>
      match currentInputData (appState w) !! n with
      | None => t
      | Some data =>
          match isFavorited (meta data) with
          | None => t
          | Some b =>
              let fav := negb b in
              let w1 :=
                {| appState := setFavorited n fav (appState w);
                   selectionService := selectionService w;
                   referenceSelectionService := referenceSelectionService w;
                   sliceService := sliceService w |} in
              let w2 :=
                if fav
                then with_slices
                       (addIdsToSlice FAVORITES_SLICE_NAME [id data]) w1
                else with_slices
                       (removeIdsFromSlice FAVORITES_SLICE_NAME [id data]) w1
              in
              let w3 :=
                if decide (selectedSliceName (sliceService w2)
                           = FAVORITES_SLICE_NAME)
                then selectNamedSlice FAVORITES_SLICE_NAME w2
                else w2 in
              {| toolbar_app := w3; highlightFavorite := fav |}
          end
      end
  end.

(** [renderLuckyButton], the handler [selectRandom] at the number that
    [randInt(0, length)] draws. *)
Definition selectRandom (nextIndex : Z) (w : App) : option App :=
  next ← JS.at_index (currentInputData (appState w)) nextIndex;
  Some (with_selection (selectIds [id next]) w).

(** [renderSelectionArrows], the handler [selectOffset]: the selected
    set becomes the previous (-1) or next (1) example in the dataset.
    [None] is the exception of reading [.id] of [undefined]. *)
Definition datasetNextIndex (offset : Z) (w : App) : option Z :=
  let primaryId := primarySelectedId (selectionService w) in
  let selectedIndex :=
    JS.findIndex (λ ex, bool_decide (Some (id ex) = primaryId))
      (currentInputData (appState w)) in
  let numExamples := Z.of_nat (length (currentInputData (appState w))) in
  JS.rem (selectedIndex + offset + numExamples) numExamples.

Definition datasetSelectOffset (offset : Z) (w : App) : option App :=
  nextIndex ← datasetNextIndex offset w;
  next ← JS.at_index (currentInputData (appState w)) nextIndex;
  Some (with_selection (selectIds [id next]) w).

(** [renderPrimarySelectControls], the handler [selectOffset]: the
    primary selection becomes the previous (-1) or next (1) example in
    the current selected list. [None] is an index that names no
    selected identifier. *)
Definition primaryNextIndex (offset : Z) (w : App) : option Z :=
  let numSelected := Z.of_nat (length (selectedIds (selectionService w))) in
  let primaryId := primarySelectedId (selectionService w) in
  let selectedIndex :=
    JS.findIndex (λ i, bool_decide (Some i = primaryId))
      (selectedIds (selectionService w)) in
  JS.rem (selectedIndex + offset + numSelected) numSelected.

Definition primarySelectOffset (offset : Z) (w : App) : option App :=
  nextIndex ← primaryNextIndex offset w;
  nextId ← JS.at_index (selectedIds (selectionService w)) nextIndex;
  Some (with_selection (setPrimarySelection nextId) w).

(** [renderPairControls]: the index into [idPairs] of the pair made of
    the two primary selections, [-1] if one of them is null or the pair
    is not found. *)
Definition selectedPairIndex (w : App) : Z :=
  let idPairs := selectedIdPairs w in
  match primarySelectedId (selectionService w),
        primarySelectedId (referenceSelectionService w) with
  | Some child, Some parent =>
      JS.findIndex (λ pair, compareArrays_is_0 pair (child, parent)) idPairs
  | _, _ => -1
  end.

Definition pairNextIndex (offset : Z) (w : App) : option Z :=
  let isPairSelected := negb (selectedPairIndex w =? -1) in
  let numPairs := Z.of_nat (length (selectedIdPairs w)) in
  (* If no valid pair is selected (-1), ignore and start at 0. *)
  let start := if isPairSelected then selectedPairIndex w else 0 in
  JS.rem (start + offset + numPairs) numPairs.

(** [renderPairControls], the handler [selectOffset]: cycle through
    pairs, relative to the current selected one. *)
Definition pairSelectOffset (offset : Z) (w : App) : option App :=
  let idPairs := selectedIdPairs w in
  nextPairIndex ← pairNextIndex offset w;
  nextIds ← JS.at_index idPairs nextPairIndex;
  let w1 :=
    if decide (length (selectedIds (selectionService w)) = 0%nat)
    then with_selection (selectIds (flatten (pairArray <$> idPairs))) w
    else w in
  Some (with_reference (setPrimarySelection nextIds.2)
          (with_selection (setPrimarySelection nextIds.1) w1)).

(** [render] and the render functions it calls: which controls are on
    the page. *)
Definition luckyButtonRendered (w : App) : bool :=
  bool_decide (length (selectedIds (selectionService w)) = 0%nat).

Definition selectionArrowsRendered (w : App) : bool :=
  bool_decide (length (selectedIds (selectionService w)) = 1%nat).

Definition primarySelectControlsRendered (w : App) : bool :=
  bool_decide (primarySelectedId (selectionService w) ≠ None).

Definition primaryArrowsRendered (w : App) : bool :=
  primarySelectControlsRendered w
  && bool_decide (1 < length (selectedIds (selectionService w)))%nat.

Definition pairControlsRendered (w : App) : bool :=
  compareExamplesEnabled (appState w)
  && negb (bool_decide (length (selectedIdPairs w) = 0%nat)).

Definition favoriteButtonRendered (w : App) : bool :=
  primarySelectControlsRendered w
  && bool_decide (primarySelectedInputData w ≠ None).

(** *** Slice editor ([slice_module.ts]) *)

(** [anyCheckboxChecked] returns the length of the checkbox list, a
    number. *)
Definition anyCheckboxChecked (m : SliceModule) : JS.value :=
  JS.VNum (Z.of_nat (length (sliceByFeatures m))).

Definition createButtonEnabled (m : SliceModule) : JS.value :=
  let numSelected := length (selectedIds (selectionService (module_app m))) in
  let sliceFromFilters :=
    JS.and (JS.VBool (bool_decide (numSelected = 0%nat)))
      (anyCheckboxChecked m) in
  JS.or
    (* Making a slice from filters (name generated based on filters). *)
    sliceFromFilters
    (* Making a slice from selected points (must give a name) *)
    (JS.and (JS.VBool (bool_decide (sliceName m ≠ "")))
       (JS.VBool (bool_decide (0 < numSelected)%nat))).

Definition deleteButtonEnabled (m : SliceModule) : bool :=
  bool_decide (selectedSliceName (sliceService (module_app m)) ≠ "")
  && bool_decide (selectedSliceName (sliceService (module_app m))
                  ≠ FAVORITES_SLICE_NAME).

Definition sliceNameInputEditable (m : SliceModule) : JS.value :=
  JS.or
    (JS.VBool
       (bool_decide
          (0 < length (selectedIds (selectionService (module_app m))))%nat))
    (anyCheckboxChecked m).

(** [lastCreatedSlice]: [None] is the [undefined] read from an empty
    list of names. *)
Definition lastCreatedSlice (w : App) : option string :=
  let allSlices := sliceNames (sliceService w) in
  JS.at_index allSlices (Z.of_nat (length allSlices) - 1).

(** [makeSlicesFromAllLabelCombos]: a slice per combination of the
    selected features. *)
Definition makeSlicesFromAllLabelCombos (m : SliceModule) : App :=
  let w := module_app m in
  let data := selectedOrAllInputData w in
  let namedSlices := groupExamplesByFeatures data (sliceByFeatures m) in
  let sliceNamePrefix := sliceName m in
  foldl
    (λ w group,
       let createSlicename := sliceNamePrefix +:+ "  " +:+ group.1 in
       let ids := id <$> group.2 in
       with_slices (addNamedSlice createSlicename ids) w)
    w namedSlices.

Definition selectSlice (sliceName : string) (w : App) : App :=
  selectNamedSlice sliceName w.

(** [handleClickCreate]. With a checkbox checked the name handed to
    [selectSlice] is [undefined] when no slice is stored, and
    [selectSlice] passes it on to the slice service; the name input and
    the checkbox list are reset after that call, and the result is [None]
    only if the call throws. *)
Definition handleClickCreate (m : SliceModule) : option SliceModule :=
  w ← (if JS.truthy (anyCheckboxChecked m)
       then
         let w1 := makeSlicesFromAllLabelCombos m in
         match lastCreatedSlice w1 with
         | Some name => Some (selectSlice name w1)
         | None => selectNamedSliceUndefined w1
         end
       else
         let selectedIds := selectedIds (selectionService (module_app m)) in
         let createSliceName := sliceName m in
         Some (selectSlice createSliceName
                 (with_slices (addNamedSlice createSliceName selectedIds)
                    (module_app m))));
  Some {| module_app := w; sliceByFeatures := []; sliceName := "" |}.

Definition deleteSlice (m : SliceModule) : SliceModule :=
  let w := module_app m in
  {| module_app :=
       selectSlice ""
         (with_slices
            (deleteNamedSlice (selectedSliceName (sliceService w))) w);
     sliceByFeatures := sliceByFeatures m;
     sliceName := sliceName m |}.

(** [render]: the delete button carries
    [?disabled=${!this.deleteButtonEnabled}] and [@click=${onClickDelete}];
    a disabled button dispatches no click. *)
Definition clickDelete (m : SliceModule) : SliceModule :=
  if deleteButtonEnabled m then deleteSlice m else m.

(** [renderCreate]: the create button carries
    [?disabled="${!this.createButtonEnabled}"] and
    [@click=${onClickCreate}]. *)
Definition clickCreate (m : SliceModule) : option SliceModule :=
  if JS.truthy (createButtonEnabled m) then handleClickCreate m else Some m.

(** A click on a dataset paging control with this offset replaces the
    selection by the identifier of the row at index [k] alone. *)
Definition pagesTo (offset : Z) (w : App) (k : nat) : Prop :=
  ∃ next w',
    currentInputData (appState w) !! k = Some next
    ∧ datasetSelectOffset offset w = Some w'
    ∧ selectedIds (selectionService w') = [id next].

(** A click on a pair control with this offset selects all the members
    of the pairs, makes [child] the primary selection and [parent] the
    primary selection of the reference. *)
Definition pairsTo (offset : Z) (w : App) (child parent : string) : Prop :=
  ∃ w',
    pairSelectOffset offset w = Some w'
    ∧ selectedIds (selectionService w')
      = JS.set_of (flatten (pairArray <$> selectedIdPairs w))
    ∧ primarySelectedId (selectionService w') = Some child
    ∧ primarySelectedId (referenceSelectionService w') = Some parent.

End Widgets.

(** ** Well-formed states *)

(** The spec's invariants of the selection state: the selection is a set,
    and the primary identifier, if not null, is one of its members. *)
Definition selection_wf (s : SelectionService) : Prop :=
  NoDup (selectedIds s)
  ∧ ∀ p, primarySelectedId s = Some p → p ∈ selectedIds s.

(** The spec's invariant that the selection set contains only identifiers
    present in the current dataset. *)
Definition selection_in_dataset (w : App) : Prop :=
  ∀ i, i ∈ selectedIds (selectionService w) →
       i ∈ id <$> currentInputData (appState w).

(** ** A sample instance of the collaborators and sample states *)

Definition sample_collaborators : Collaborators := {|
  FAVORITES_SLICE_NAME := "Favorites";
  primaryAfterSelect := λ p sel,
    match p with
    | Some x => if decide (x ∈ sel) then Some x else head sel
    | None => head sel
    end;
  selectionWithPrimary := λ sel i, sel ++ [i];
  groupExamplesByFeatures := λ _ _, [];
  selectNamedSliceUndefined := λ w, Some w;
|}.

Definition sample_row (i : string) (p : option string) (f : option bool)
  : IndexedInput :=
  {| id := i; meta := {| parentId := p; isFavorited := f |} |}.

Definition sample_selection (ids : list string) (p : option string)
  : SelectionService :=
  {| selectedIds := ids; primarySelectedId := p |}.

Definition sample_app (data : list IndexedInput) (sel ref : SelectionService)
    (slices : list (string * list string)) (active : string) : App :=
  {| appState := {| currentInputData := data; compareExamplesEnabled := true |};
     selectionService := sel;
     referenceSelectionService := ref;
     sliceService := {| namedSlices := slices; selectedSliceName := active |} |}.

(** The dataset [a, b, c, d, e] of the spec's paging scenario. *)
Definition sample_abcde : list IndexedInput :=
  [sample_row "a" None (Some false); sample_row "b" None (Some false);
   sample_row "c" None (Some false); sample_row "d" None (Some false);
   sample_row "e" None None].

(** The dataset of the spec's pairing scenario. *)
Definition sample_pairs : list IndexedInput :=
  [sample_row "child1" (Some "parent1") None;
   sample_row "child2" (Some "parent2") None].

(** A dataset with the lineage [c → b → a] and a row without lineage. *)
Definition sample_lineage : list IndexedInput :=
  [sample_row "a" None (Some false); sample_row "b" (Some "a") (Some false);
   sample_row "c" (Some "b") (Some false); sample_row "d" None (Some false)].

Definition sample_none : SelectionService := sample_selection [] None.

(** [c] selected in [a, b, c, d, e]; the favorites slice holds [a]. *)
Definition sample_paging (active : string) : App :=
  sample_app sample_abcde (sample_selection ["c"] (Some "c")) sample_none
    [("Favorites", ["a"])] active.

(** [c] selected in [a, b, c, d, e] with no primary selection; the
    state keeps the invariants of the selection. *)
Definition sample_primary_null : App :=
  sample_app sample_abcde (sample_selection ["c"] None) sample_none
    [("Favorites", [])] "".

(** Nothing selected over the two pairs. *)
Definition sample_pairing : App :=
  sample_app sample_pairs sample_none sample_none [("Favorites", [])] "".

(** [b] selected in the dataset with lineage. *)
Definition sample_related : App :=
  sample_app sample_lineage (sample_selection ["b"] (Some "b")) sample_none
    [("Favorites", [])] "".

(** The slice editor with a name typed in and two identifiers selected. *)
Definition sample_editor : SliceModule :=
  {| module_app :=
       sample_app sample_abcde (sample_selection ["b"; "d"] (Some "b"))
         sample_none [("Favorites", [])] "";
     sliceByFeatures := [];
     sliceName := "mine" |}.

(** ** Further handlers of the two widgets *)

Module JSArray.

(** [Array.prototype.indexOf] on strings: the first index of the
    element, [-1] when it is absent. *)
Definition indexOf (x : string) (l : list string) : Z :=
  JS.findIndex (λ y, bool_decide (y = x)) l.

(** [Array.prototype.splice(start, 1)]: a negative [start] counts from
    the end of the array, and one element is removed at the resulting
    position if there is one. *)
Definition splice1 {A} (start : Z) (l : list A) : list A :=
  let len := Z.of_nat (length l) in
  let from := if start <? 0 then Z.max (len + start) 0 else Z.min start len in
  delete (Z.to_nat from) l.

End JSArray.

Section Handlers.
Context `{Collaborators}.

(** [render] of the toolbar, the handler [clearSelection]. *)
Definition clearSelection (w : App) : App :=
  with_selection (selectIds []) w.

(** [render] of the toolbar, the handler [toggleExampleComparison]. *)
Definition toggleExampleComparison (w : App) : App :=
  {| appState :=
       {| currentInputData := currentInputData (appState w);
          compareExamplesEnabled := negb (compareExamplesEnabled (appState w)) |};
     selectionService := selectionService w;
     referenceSelectionService := referenceSelectionService w;
     sliceService := sliceService w |}.

(** [renderSliceSelector], the handler [itemClicked] of the item of a
    slice name: the active slice is deselected, another one selected. *)
Definition itemClicked (name : string) (m : SliceModule) : SliceModule :=
  let selectedSliceName := selectedSliceName (sliceService (module_app m)) in
  {| module_app :=
       selectSlice (if decide (selectedSliceName = name) then "" else name)
         (module_app m);
     sliceByFeatures := sliceByFeatures m;
     sliceName := sliceName m |}.

(** [renderFilters], the handler [onChange] of the checkbox of a feature,
    at the [checked] state of the event target. *)
Definition onChange (checked : bool) (key : string) (m : SliceModule)
  : SliceModule :=
  {| module_app := module_app m;
     sliceByFeatures :=
       if checked then sliceByFeatures m ++ [key]
       else
         let index := JSArray.indexOf key (sliceByFeatures m) in
         JSArray.splice1 index (sliceByFeatures m);
     sliceName := sliceName m |}.

(** [renderCreate], the handler [onInputChange] at the value of the input
    box. *)
Definition onInputChange (value : string) (m : SliceModule) : SliceModule :=
  {| module_app := module_app m;
     sliceByFeatures := sliceByFeatures m;
     sliceName := value |}.

(** A click on a primary paging control with this offset makes the
    selected identifier at index [k] the primary selection and changes
    nothing else. *)
Definition primaryMovesTo (offset : Z) (w : App) (k : nat) : Prop :=
  ∃ x,
    selectedIds (selectionService w) !! k = Some x
    ∧ primarySelectOffset offset w
      = Some (with_selection
                (λ s, {| selectedIds := selectedIds s;
                         primarySelectedId := Some x |}) w).

(** A click on a pair control with this offset makes the pair at index
    [k] of the pair list the two primary selections. *)
Definition pairMovesTo (offset : Z) (w : App) (k : nat) : Prop :=
  ∃ child parent w',
    selectedIdPairs w !! k = Some (child, parent)
    ∧ pairSelectOffset offset w = Some w'
    ∧ primarySelectedId (selectionService w') = Some child
    ∧ primarySelectedId (referenceSelectionService w') = Some parent.

(** The favorite flags of the rows and the favorites slice agree: a row
    is flagged exactly when its identifier is a member of the slice. *)
Definition favorites_consistent (w : App) : Prop :=
  ∃ members,
    favoritesMembers w = Some members
    ∧ ∀ d, d ∈ currentInputData (appState w) →
           (isFavorited (meta d) = Some true ↔ id d ∈ members).

End Handlers.

(** ** Further sample states *)

(** An instance whose grouping puts all the rows in one group. *)
Definition sample_grouping : Collaborators := {|
  FAVORITES_SLICE_NAME := "Favorites";
  primaryAfterSelect := λ p sel,
    match p with
    | Some x => if decide (x ∈ sel) then Some x else head sel
    | None => head sel
    end;
  selectionWithPrimary := λ sel i, sel ++ [i];
  groupExamplesByFeatures := λ data _, [("all", data)];
  selectNamedSliceUndefined := λ w, Some w;
|}.

(** [a], [c] and [e] selected in [a, b, c, d, e], [c] the primary one. *)
Definition sample_multi : App :=
  sample_app sample_abcde (sample_selection ["a"; "c"; "e"] (Some "c"))
    sample_none [("Favorites", [])] "".

(** Nothing selected and no primary selection over [a, b, c, d, e]. *)
Definition sample_unselected : App :=
  sample_app sample_abcde sample_none sample_none [("Favorites", [])] "".

(** The two children selected, the first pair the primary selections. *)
Definition sample_pair_selected : App :=
  sample_app sample_pairs
    (sample_selection ["child1"; "child2"] (Some "child1"))
    (sample_selection ["parent1"] (Some "parent1"))
    [("Favorites", [])] "".

(** A slice editor with a checkbox checked and a prefix typed in. *)
Definition sample_editor_features : SliceModule :=
  {| module_app := sample_unselected;
     sliceByFeatures := ["label"];
     sliceName := "by" |}.

(** A slice editor whose active slice is a slice of the user. *)
Definition sample_editor_active : SliceModule :=
  {| module_app :=
       sample_app sample_abcde (sample_selection ["b"] (Some "b")) sample_none
         [("Favorites", ["a"]); ("mine", ["b"])] "mine";
     sliceByFeatures := ["x"; "y"];
     sliceName := "" |}.

(** ** Properties *)

Section Properties.
Context `{Collaborators}.

(** *** JavaScript helpers *)

Lemma findIndex_from_first {A} (p : A → bool) (l : list A) (n : nat) x k :
  l !! n = Some x → p x = true →
  (∀ j y, (j < n)%nat → l !! j = Some y → p y = false) →
  JS.findIndex_from p l k = k + Z.of_nat n.
Proof.
  revert n k. induction l as [| a l IH]; intros n k Hn Hp Hlt; [done |].
  destruct n as [| n]; simpl in *.
  - injection Hn as ->. rewrite Hp. lia.
  - rewrite (Hlt 0%nat a) by (done || lia).
    rewrite (IH n (k + 1)); [lia | done | done |].
    intros j y Hj Hy. apply (Hlt (S j) y); [lia | done].
Qed.

Lemma at_index_of_nat {A} (l : list A) (n : nat) :
  JS.at_index l (Z.of_nat n) = l !! n.
Proof.
  unfold JS.at_index. rewrite decide_True by lia. by rewrite Nat2Z.id.
Qed.

Lemma rem_of_nat (a b : nat) :
  b ≠ 0%nat → JS.rem (Z.of_nat a) (Z.of_nat b) = Some (Z.of_nat (a mod b)).
Proof.
  intros Hb. unfold JS.rem. rewrite decide_False by lia.
  rewrite Z.rem_mod_nonneg by lia. by rewrite Nat2Z.inj_mod.
Qed.

Lemma foldl_set_add_elem (l acc : list string) x :
  x ∈ foldl (λ s y, JS.set_add y s) acc l ↔ x ∈ acc ∨ x ∈ l.
Proof.
  revert acc. induction l as [| a l IH]; intros acc; simpl.
  - rewrite elem_of_nil. tauto.
  - rewrite IH. unfold JS.set_add. rewrite elem_of_cons.
    case_decide; [| rewrite elem_of_app, list_elem_of_singleton];
      intuition congruence.
Qed.

Lemma foldl_set_add_NoDup (l acc : list string) :
  NoDup acc → NoDup (foldl (λ s y, JS.set_add y s) acc l).
Proof.
  revert acc. induction l as [| a l IH]; intros acc Hacc; [done |].
  simpl. apply IH. unfold JS.set_add. case_decide; [done |].
  apply NoDup_app. split_and!; [done | | apply NoDup_singleton].
  intros y Hy ->%list_elem_of_singleton. done.
Qed.

Lemma foldl_set_add_fresh (l acc : list string) :
  NoDup (acc ++ l) → foldl (λ s y, JS.set_add y s) acc l = acc ++ l.
Proof.
  revert acc. induction l as [| a l IH]; intros acc Hnd; simpl.
  - by rewrite app_nil_r.
  - unfold JS.set_add. rewrite decide_False.
    + rewrite IH; rewrite <- app_assoc; done.
    + apply NoDup_app in Hnd as (_ & Hd & _). intros Ha.
      apply (Hd a Ha), list_elem_of_here.
Qed.

Lemma set_of_elem l x : x ∈ JS.set_of l ↔ x ∈ l.
Proof.
  unfold JS.set_of. rewrite foldl_set_add_elem, elem_of_nil. tauto.
Qed.

Lemma set_of_NoDup l : NoDup (JS.set_of l).
Proof. apply foldl_set_add_NoDup, NoDup_nil_2. Qed.

Lemma set_of_id l : NoDup l → JS.set_of l = l.
Proof. intros Hl. by apply (foldl_set_add_fresh l []). Qed.

Lemma set_of_singleton x : JS.set_of [x] = [x].
Proof. apply set_of_id, NoDup_singleton. Qed.

Lemma set_add_elem x y s : y ∈ JS.set_add x s ↔ y = x ∨ y ∈ s.
Proof.
  unfold JS.set_add. case_decide.
  - intuition congruence.
  - rewrite elem_of_app, list_elem_of_singleton. tauto.
Qed.

Lemma set_add_NoDup x s : NoDup s → NoDup (JS.set_add x s).
Proof. intros Hs. by apply (foldl_set_add_NoDup [x] s). Qed.

Lemma filter_eq_absent (l : list string) x :
  x ∉ l → filter (λ y, y = x) l = [].
Proof.
  induction l as [| y l IH]; intros Hx; [done |].
  apply not_elem_of_cons in Hx as [Hne Hx].
  rewrite filter_cons_False by congruence. by apply IH.
Qed.

Lemma NoDup_occurs_once (l : list string) x :
  NoDup l → x ∈ l → length (filter (λ y, y = x) l) = 1%nat.
Proof.
  induction 1 as [| y l Hy Hl IH]; intros Hx; [by apply elem_of_nil in Hx |].
  destruct (decide (y = x)) as [-> | Hne].
  - rewrite filter_cons_True by done. by rewrite filter_eq_absent.
  - rewrite filter_cons_False by done. apply IH.
    apply elem_of_cons in Hx as [-> | Hx]; done.
Qed.

Lemma set_delete_elem x y s : y ∈ JS.set_delete x s ↔ y ∈ s ∧ y ≠ x.
Proof. unfold JS.set_delete. rewrite list_elem_of_filter. tauto. Qed.

Lemma set_delete_NoDup x s : NoDup s → NoDup (JS.set_delete x s).
Proof. apply NoDup_filter. Qed.

Lemma map_get_set_eq {A} k (v : A) m : JS.map_get k (JS.map_set k v m) = Some v.
Proof.
  induction m as [| [k' v'] m IH]; simpl.
  - by rewrite decide_True.
  - case_decide; simpl; [by rewrite decide_True | by rewrite decide_False].
Qed.

(** A write to a row that keeps its identifier keeps the id→index
    lookup. *)
Lemma indicesById_setFavorited n b a i :
  indicesById (setFavorited n b a) i = indicesById a i.
Proof.
  unfold indicesById, setFavorited. simpl.
  generalize (currentInputData a). intros l. revert n.
  induction l as [| d l IH]; intros n; [done |].
  destruct n as [| n]; simpl.
  - case_decide; [done |]. by destruct (list_find _ l) as [[? ?] |].
  - case_decide; [done |]. specialize (IH n).
    unfold alter in IH.
    destruct (list_find _ (list_alter _ n l)) as [[? ?] |],
             (list_find _ l) as [[? ?] |]; simpl in *; congruence.
Qed.

Lemma indicesById_lookup a i n :
  indicesById a i = Some n →
  ∃ d, currentInputData a !! n = Some d ∧ id d = i.
Proof.
  unfold indicesById. intros Hfind.
  destruct (list_find _ _) as [[n' d] |] eqn:E; [| done].
  injection Hfind as <-. apply list_find_Some in E as (? & ? & _). eauto.
Qed.

(** *** Ancestry *)

Section Ancestry.
Variable a : AppState.

Lemma parentLink_in_dataset x y :
  parentLink a x y → x ∈ id <$> currentInputData a.
Proof.
  unfold parentLink, parentOf. intros Hp.
  destruct (list_find _ _) as [[n d] |] eqn:E; [| done].
  apply list_find_Some in E as (Hd & Hid & _).
  apply list_elem_of_fmap. exists d. split; [done |].
  by apply list_elem_of_lookup_2 in Hd.
Qed.

Lemma ancestryFrom_nsteps fuel i x :
  x ∈ ancestryFrom a fuel i
  ↔ ∃ k, (k < fuel)%nat ∧ nsteps (parentLink a) k i x.
Proof.
  revert i. induction fuel as [| fuel IH]; intros i; simpl.
  { rewrite elem_of_nil. split; [done | intros (k & ? & _); lia]. }
  rewrite elem_of_cons. split.
  - intros [-> | Hx].
    + exists 0%nat. split; [lia | constructor].
    + destruct (parentOf a i) as [p |] eqn:Hp;
        [| by apply elem_of_nil in Hx].
      apply IH in Hx as (k & Hk & Hsteps).
      exists (S k). split; [lia |]. by econstructor.
  - intros (k & Hk & Hsteps). inversion Hsteps as [| k' ? p ? Hp Hrest]; subst.
    + by left.
    + right. unfold parentLink in Hp. rewrite Hp. apply IH.
      exists k'. split; [lia | done].
Qed.

(** The chain of a path of [k] links: its [j]-th identifier is [j]
    links from the start and [k - j] links from the end. *)
Lemma ancestryFrom_path k i x :
  nsteps (parentLink a) k i x →
  length (ancestryFrom a k i) = k
  ∧ ∀ j v, ancestryFrom a k i !! j = Some v →
           nsteps (parentLink a) j i v
           ∧ nsteps (parentLink a) (k - j) v x ∧ (j < k)%nat.
Proof.
  induction 1 as [i | k i p x Hp Hrest [IHlen IH]]; simpl; [done |].
  unfold parentLink in Hp. rewrite Hp. simpl. split; [by rewrite IHlen |].
  intros [| j] v Hv; simpl in Hv.
  - injection Hv as <-. split_and!; [constructor | | lia].
    by econstructor.
  - destruct (IH j v Hv) as (H1 & H2 & H3). split_and!; [| done | lia].
    by econstructor.
Qed.

Lemma repeated_or_NoDup (l : list string) :
  NoDup l
  ∨ ∃ i j x, (i < j)%nat ∧ l !! i = Some x ∧ l !! j = Some x.
Proof.
  induction l as [| y l [IH | (i & j & x & Hij & Hi & Hj)]].
  - left. constructor.
  - destruct (decide (y ∈ l)) as [Hy | Hy].
    + right. apply list_elem_of_lookup in Hy as [j Hj].
      exists 0%nat, (S j), y. split_and!; [lia | done | done].
    + left. by constructor.
  - right. exists (S i), (S j), x. split_and!; [lia | done | done].
Qed.

(** A path of links has a path between the same ends that is no longer
    than the dataset. *)
Lemma nsteps_parentLink_short k i x :
  nsteps (parentLink a) k i x →
  ∃ k', (k' ≤ length (currentInputData a))%nat
        ∧ nsteps (parentLink a) k' i x.
Proof.
  induction (lt_wf k) as [k _ IH]. intros Hsteps.
  destruct (decide (k ≤ length (currentInputData a))%nat) as [Hk | Hk];
    [by exists k |].
  destruct (ancestryFrom_path k i x Hsteps) as [Hlen Hpath].
  destruct (repeated_or_NoDup (ancestryFrom a k i))
    as [Hnd | (j1 & j2 & v & Hj & Hv1 & Hv2)].
  - exfalso. apply Hk.
    rewrite <- Hlen, <- (length_fmap id (currentInputData a)).
    apply submseteq_length, NoDup_submseteq; [done |].
    intros v [j Hv]%list_elem_of_lookup.
    destruct (Hpath j v Hv) as (_ & Hend & Hjk).
    inversion Hend as [| ? ? p ? Hp ?]; subst; [lia |].
    by apply (parentLink_in_dataset v p).
  - destruct (Hpath j1 v Hv1) as (Hstart & _ & _).
    destruct (Hpath j2 v Hv2) as (_ & Hend & Hj2).
    apply (IH (j1 + (k - j2))%nat); [lia |].
    by apply (nsteps_trans _ _ _ v).
Qed.

(** The model of [getAncestry] has fuel for every ancestor: its result
    holds the identifiers that a chain of parent links reaches from
    the start, the start included. *)
Lemma getAncestry_rtc i x :
  x ∈ getAncestry a i ↔ rtc (parentLink a) i x.
Proof.
  unfold getAncestry. rewrite ancestryFrom_nsteps, rtc_nsteps. split.
  - intros (k & _ & Hk). by exists k.
  - intros [k Hk]. apply nsteps_parentLink_short in Hk as (k' & Hle & Hk').
    exists k'. split; [lia | done].
Qed.

Lemma getAncestry_self i : i ∈ getAncestry a i.
Proof. apply getAncestry_rtc. constructor. Qed.
End Ancestry.

(** *** Sequential paging *)

Section Paging.
Variables (w : App) (s : string) (i : nat) (ex : IndexedInput).
Hypothesis Hunique : NoDup (id <$> currentInputData (appState w)).
Hypothesis Hprimary : primarySelectedId (selectionService w) = Some s.
Hypothesis Hrow : currentInputData (appState w) !! i = Some ex.
Hypothesis Hid : id ex = s.

Lemma primary_findIndex :
  JS.findIndex (λ ex, bool_decide (Some (id ex) = Some s))
    (currentInputData (appState w)) = Z.of_nat i.
Proof.
  unfold JS.findIndex.
  rewrite (findIndex_from_first _ _ i ex); [lia | done | |].
  - apply bool_decide_eq_true. by rewrite Hid.
  - intros j y Hj Hy. apply bool_decide_eq_false. intros [= Ey].
    assert (j = i); [| lia].
    apply (NoDup_lookup _ j i s Hunique);
      rewrite list_lookup_fmap, ?Hy, ?Hrow; simpl; congruence.
Qed.

Lemma datasetSelectOffset_index (offset : Z) (k : nat) next :
  Z.of_nat i + offset + Z.of_nat (length (currentInputData (appState w)))
  = Z.of_nat k →
  currentInputData (appState w)
    !! (k mod length (currentInputData (appState w)))%nat = Some next →
  datasetSelectOffset offset w
  = Some (with_selection (selectIds [id next]) w).
Proof.
  intros Hk Hnext. unfold datasetSelectOffset, datasetNextIndex.
  rewrite Hprimary, primary_findIndex, Hk.
  rewrite rem_of_nat; [| by apply lookup_lt_Some in Hrow; lia].
  simpl. rewrite at_index_of_nat, Hnext. done.
Qed.
End Paging.

Lemma pagesTo_index (w : App) (s : string) (i : nat) (ex : IndexedInput)
    (offset : Z) (k : nat) :
  NoDup (id <$> currentInputData (appState w)) →
  primarySelectedId (selectionService w) = Some s →
  currentInputData (appState w) !! i = Some ex → id ex = s →
  Z.of_nat i + offset + Z.of_nat (length (currentInputData (appState w)))
  = Z.of_nat k →
  pagesTo offset w (k mod length (currentInputData (appState w)))%nat.
Proof.
  intros Hu Hp Hrow Hid Hk.
  assert (length (currentInputData (appState w)) ≠ 0%nat) as HN
    by (apply lookup_lt_Some in Hrow; lia).
  destruct (lookup_lt_is_Some_2 (currentInputData (appState w))
              (k mod length (currentInputData (appState w)))%nat)
    as [next Hnext]; [by apply Nat.mod_upper_bound |].
  exists next, (with_selection (selectIds [id next]) w). split_and!.
  - done.
  - by apply (datasetSelectOffset_index w s i ex Hu Hp Hrow Hid offset k).
  - simpl. apply set_of_singleton.
Qed.

(** C1, as amended: with exactly one identifier selected, the primary one, at index
    [i] of a dataset of [N] rows, "next" replaces the selection with the
    identifier at index [(i+1) mod N] and "prev" with the one at index
    [(i-1+N) mod N]; "next" from the last index yields the first
    identifier and "prev" from the first index the last. *)
Theorem sequential_paging_wraps
    (w : App) (s : string) (i : nat) (ex : IndexedInput) :
  let N := length (currentInputData (appState w)) in
  NoDup (id <$> currentInputData (appState w)) →
  selectedIds (selectionService w) = [s] →
  primarySelectedId (selectionService w) = Some s →
  currentInputData (appState w) !! i = Some ex → id ex = s →
  selectionArrowsRendered w = true
  ∧ pagesTo 1 w ((i + 1) mod N)%nat
  ∧ pagesTo (-1) w ((i + N - 1) mod N)%nat
  ∧ (i = (N - 1)%nat → pagesTo 1 w 0)
  ∧ (i = 0%nat → pagesTo (-1) w (N - 1)).
Proof.
  intros N Hu Hsel Hp Hrow Hid.
  assert (i < N)%nat as Hi by (by apply lookup_lt_Some in Hrow).
  assert (pagesTo 1 w ((i + 1) mod N)%nat) as Hnext.
  { replace ((i + 1) mod N)%nat with ((i + 1 + N) mod N)%nat.
    - apply (pagesTo_index w s i ex 1 (i + 1 + N)); [done .. | lia].
    - rewrite <- Nat.Div0.add_mod_idemp_r, Nat.Div0.mod_same.
      by rewrite Nat.add_0_r. }
  assert (pagesTo (-1) w ((i + N - 1) mod N)%nat) as Hprev.
  { apply (pagesTo_index w s i ex (-1) (i + N - 1)); [done .. | lia]. }
  split_and!; [| done | done | |].
  - unfold selectionArrowsRendered. by rewrite Hsel.
  - intros ->. replace ((N - 1 + 1) mod N)%nat with 0%nat in Hnext; [done |].
    replace (N - 1 + 1)%nat with N by lia. by rewrite Nat.Div0.mod_same.
  - intros ->. replace ((0 + N - 1) mod N)%nat with (N - 1)%nat in Hprev;
      [done |].
    rewrite Nat.mod_small; lia.
Qed.

(** *** Related-selection expansion *)

Lemma findAllParents_elem w x :
  x ∈ findAllParents w
  ↔ ∃ s, s ∈ selectedIds (selectionService w)
         ∧ x ∈ getAncestry (appState w) s.
Proof.
  unfold findAllParents, flatten. rewrite list_elem_of_join. split.
  - intros (l & Hx & (s & -> & Hs)%list_elem_of_fmap). eauto.
  - intros (s & Hs & Hx). exists (getAncestry (appState w) s).
    split; [done |]. apply list_elem_of_fmap. eauto.
Qed.

Lemma children_inner_elem (sel : string → bool) y (l ids : list string) x :
  x ∈ foldl (λ ids ancestorId, if sel ancestorId then JS.set_add y ids else ids)
        ids l
  ↔ x ∈ ids ∨ (x = y ∧ ∃ anc, anc ∈ l ∧ sel anc = true).
Proof.
  revert ids. induction l as [| b l IH]; intros ids; simpl.
  - split; [by left |]. intros [? | (_ & anc & Hanc & _)]; [done |].
    by apply elem_of_nil in Hanc.
  - rewrite IH. destruct (sel b) eqn:Hb.
    + rewrite set_add_elem. split.
      * intros [[-> | ?] | (-> & anc & ? & ?)]; eauto 6 using list_elem_of_here, list_elem_of_further.
      * intros [? | (-> & anc & Hanc & Hsel)]; [by left; right |].
        left. by left.
    + split.
      * intros [? | (-> & anc & ? & ?)]; eauto 6 using list_elem_of_further.
      * intros [? | (-> & anc & Hanc & Hsel)]; [by left |].
        apply elem_of_cons in Hanc as [-> | Hanc]; [congruence |]. eauto.
Qed.

Lemma findAllChildren_elem w x :
  x ∈ findAllChildren w
  ↔ x ∈ selectedIds (selectionService w)
    ∨ ∃ d anc, d ∈ currentInputData (appState w) ∧ id d = x
               ∧ anc ∈ getAncestry (appState w) (id d)
               ∧ anc ∈ selectedIds (selectionService w).
Proof.
  unfold findAllChildren.
  rewrite <- (set_of_elem (selectedIds (selectionService w)) x).
  generalize (JS.set_of (selectedIds (selectionService w))).
  induction (currentInputData (appState w)) as [| d l IH]; intros ids;
    cbn [foldl].
  - split; [by left |]. intros [? | (d & ? & Hd & _)]; [done |].
    by apply elem_of_nil in Hd.
  - rewrite IH, children_inner_elem. unfold isIdSelected. split.
    + intros [[? | (-> & anc & Hanc & Hsel%bool_decide_eq_true)]
             | (d' & anc & ? & ? & ? & ?)].
      * by left.
      * right. exists d, anc. split_and!; [apply list_elem_of_here | done ..].
      * right. exists d', anc.
        split_and!; [by apply list_elem_of_further | done ..].
    + intros [? | (d' & anc & Hd' & Hid & Hanc & Hsel)]; [by left; left |].
      apply elem_of_cons in Hd' as [-> | Hd'].
      * left. right. split; [done |]. exists anc.
        split; [done | by apply bool_decide_eq_true].
      * right. exists d', anc. done.
Qed.

(** C4: for a selection that is not empty, [selectRelated] replaces the
    selection with a list without duplicates that holds the selection
    and is the union of (a) the identifiers that parent links reach from
    a selected identifier, that identifier included, and (b) the
    identifiers of the dataset from which parent links reach a selected
    identifier. *)
Theorem selectRelated_union (w : App) :
  let S := selectedIds (selectionService w) in
  let R := selectedIds (selectionService (selectRelated w)) in
  S ≠ [] →
  NoDup R
  ∧ (∀ s, s ∈ S → s ∈ R)
  ∧ ∀ x, x ∈ R
         ↔ (∃ s, s ∈ S ∧ rtc (parentLink (appState w)) s x)
           ∨ (x ∈ id <$> currentInputData (appState w)
              ∧ ∃ s, s ∈ S ∧ rtc (parentLink (appState w)) x s).
Proof.
  intros S R _.
  assert (∀ x, x ∈ R
               ↔ (∃ s, s ∈ S ∧ rtc (parentLink (appState w)) s x)
                 ∨ (x ∈ id <$> currentInputData (appState w)
                    ∧ ∃ s, s ∈ S ∧ rtc (parentLink (appState w)) x s))
    as Hunion.
  { intros x. unfold R, selectRelated. simpl.
    rewrite set_of_elem, elem_of_app, findAllParents_elem,
      findAllChildren_elem.
    setoid_rewrite getAncestry_rtc. fold S. split.
    - intros [? | [Hx | (d & anc & Hd & <- & Hanc & Hsel)]]; [by left | |].
      + left. exists x. split; [done | constructor].
      + right. split; [| by exists anc].
        apply list_elem_of_fmap. by exists d.
    - intros [? | [(d & -> & Hd)%list_elem_of_fmap (s & Hs & Hsteps)]];
        [by left |].
      right. right. by exists d, s. }
  split_and!; [apply set_of_NoDup | | done].
  intros s Hs. apply Hunion. left. exists s. split; [done | constructor].
Qed.

(** *** Paired navigation *)

Lemma selection_wf_empty (sel : SelectionService) :
  selection_wf sel → selectedIds sel = [] → primarySelectedId sel = None.
Proof.
  intros [_ Hp] Hsel. destruct (primarySelectedId sel) as [p |]; [| done].
  specialize (Hp p eq_refl). rewrite Hsel in Hp. by apply elem_of_nil in Hp.
Qed.

(** C2, as amended: with comparison mode on, nothing selected and the
    two rows [child1→parent1], [child2→parent2], one click on "next"
    selects all the members of the pairs and makes [child2] the primary
    selection and [parent2] the primary selection of the reference: the
    cycle starts at pair 0 and moves by the offset. One click on "prev"
    leads to the same pair. *)
Theorem pair_next_from_empty_selection
    (w : App) (child1 parent1 child2 parent2 : string) (f1 f2 : option bool) :
  compareExamplesEnabled (appState w) = true →
  selection_wf (selectionService w) →
  selectedIds (selectionService w) = [] →
  currentInputData (appState w)
  = [ {| id := child1;
         meta := {| parentId := Some parent1; isFavorited := f1 |} |};
      {| id := child2;
         meta := {| parentId := Some parent2; isFavorited := f2 |} |} ] →
  parent1 ≠ "" → parent2 ≠ "" →
  pairControlsRendered w = true
  ∧ selectedIdPairs w = [(child1, parent1); (child2, parent2)]
  ∧ pairsTo 1 w child2 parent2
  ∧ pairsTo (-1) w child2 parent2.
Proof.
  intros Hcmp Hwf Hsel Hdata Hp1 Hp2.
  assert (selectedIdPairs w = [(child1, parent1); (child2, parent2)]) as Hpairs.
  { unfold selectedIdPairs, selectedOrAllInputData. rewrite Hsel, Hdata.
    rewrite filter_cons_True by done. rewrite filter_cons_True by done.
    done. }
  assert (∀ offset, pairNextIndex offset w = Some 1 →
                    pairsTo offset w child2 parent2) as Hgo.
  { intros offset Hnext. unfold pairsTo, pairSelectOffset.
    rewrite Hnext, Hpairs, Hsel. simpl.
    eexists. split; [reflexivity |]. simpl. split_and!; [| done | done].
    rewrite decide_True; [done |].
    apply set_of_elem. simpl. rewrite !elem_of_cons. tauto. }
  split_and!; [| done | |].
  - unfold pairControlsRendered. rewrite Hcmp, Hpairs. done.
  - apply Hgo. unfold pairNextIndex, selectedPairIndex.
    rewrite (selection_wf_empty _ Hwf Hsel), Hpairs. done.
  - apply Hgo. unfold pairNextIndex, selectedPairIndex.
    rewrite (selection_wf_empty _ Hwf Hsel), Hpairs. done.
Qed.

(** *** Guards of the navigation controls *)

Lemma rem_is_Some (a b : Z) : b ≠ 0 → is_Some (JS.rem a b).
Proof. intros Hb. unfold JS.rem. rewrite decide_False by done. eauto. Qed.

(** C8: every remainder taken by a navigation control has a divisor that
    is not zero when the control is on the page: the pair list is not
    empty under the pair controls, the dataset is not empty under the
    dataset paging controls, and more than one identifier is selected
    under the primary paging arrows. *)
Theorem navigation_divisors_nonzero (w : App) :
  selection_in_dataset w →
  (pairControlsRendered w = true →
   length (selectedIdPairs w) ≠ 0%nat
   ∧ ∀ offset, is_Some (pairNextIndex offset w))
  ∧ (selectionArrowsRendered w = true →
     length (selectedIds (selectionService w)) = 1%nat
     ∧ length (currentInputData (appState w)) ≠ 0%nat
     ∧ ∀ offset, is_Some (datasetNextIndex offset w))
  ∧ (primaryArrowsRendered w = true →
     (1 < length (selectedIds (selectionService w)))%nat
     ∧ ∀ offset, is_Some (primaryNextIndex offset w)).
Proof.
  intros Hin. split_and!.
  - unfold pairControlsRendered.
    intros (_ & Hlen%negb_true_iff%bool_decide_eq_false)%andb_true_iff.
    split; [done |]. intros offset. apply rem_is_Some. lia.
  - unfold selectionArrowsRendered. intros Hlen%bool_decide_eq_true.
    assert (length (currentInputData (appState w)) ≠ 0%nat) as Hdata.
    { destruct (selectedIds (selectionService w)) as [| s l] eqn:Hsel;
        [done |].
      specialize (Hin s). rewrite Hsel in Hin.
      specialize (Hin (list_elem_of_here _ _)).
      destruct (currentInputData (appState w)); [| done].
      by apply elem_of_nil in Hin. }
    split_and!; [done | done |].
    intros offset. apply rem_is_Some. lia.
  - unfold primaryArrowsRendered.
    intros (_ & Hlen%bool_decide_eq_true)%andb_true_iff.
    split; [done |]. intros offset. apply rem_is_Some. lia.
Qed.

(** *** Slice editor *)

Lemma truthy_and a b : JS.truthy (JS.and a b) = JS.truthy a && JS.truthy b.
Proof. unfold JS.and. destruct (JS.truthy a) eqn:E; simpl; auto. Qed.

Lemma truthy_or a b : JS.truthy (JS.or a b) = JS.truthy a || JS.truthy b.
Proof. unfold JS.or. destruct (JS.truthy a) eqn:E; simpl; auto. Qed.

Lemma truthy_anyCheckboxChecked m :
  JS.truthy (anyCheckboxChecked m) = true ↔ sliceByFeatures m ≠ [].
Proof.
  unfold anyCheckboxChecked. simpl.
  destruct (sliceByFeatures m); simpl; split; intros; congruence.
Qed.

Lemma createButtonEnabled_named (m : SliceModule) :
  sliceName m ≠ "" →
  selectedIds (selectionService (module_app m)) ≠ [] →
  JS.truthy (createButtonEnabled m) = true.
Proof.
  intros Hname Hsel. unfold createButtonEnabled.
  rewrite truthy_or, !truthy_and. apply orb_true_iff. right. simpl.
  apply andb_true_iff. split; apply bool_decide_eq_true; [done |].
  destruct (selectedIds (selectionService (module_app m))); simpl; [done | lia].
Qed.

(** C6: the create button is enabled exactly when the selection is empty
    and a feature checkbox is checked, or the name is not empty and an
    identifier is selected. *)
Theorem createButtonEnabled_iff (m : SliceModule) :
  JS.truthy (createButtonEnabled m) = true
  ↔ (selectedIds (selectionService (module_app m)) = []
     ∧ sliceByFeatures m ≠ [])
    ∨ (sliceName m ≠ ""
       ∧ selectedIds (selectionService (module_app m)) ≠ []).
Proof.
  unfold createButtonEnabled.
  rewrite truthy_or, !truthy_and, orb_true_iff, !andb_true_iff.
  rewrite truthy_anyCheckboxChecked. simpl.
  rewrite !bool_decide_eq_true.
  destruct (selectedIds (selectionService (module_app m))); simpl;
    intuition (congruence || lia).
Qed.

Lemma map_get_absent {A} k (m : list (string * A)) :
  k ∉ m.*1 → JS.map_get k m = None.
Proof.
  induction m as [| [k' v'] m IH]; [done |]. simpl.
  intros [Hne Hk]%not_elem_of_cons. rewrite decide_False by done. auto.
Qed.

Lemma map_get_delete_eq {A} k (m : list (string * A)) :
  JS.map_get k (JS.map_delete k m) = None.
Proof.
  apply map_get_absent. unfold JS.map_delete.
  intros ([k' v] & -> & [Hne _]%list_elem_of_filter)%list_elem_of_fmap. done.
Qed.

Lemma map_get_delete_ne {A} k k' (m : list (string * A)) :
  k ≠ k' → JS.map_get k' (JS.map_delete k m) = JS.map_get k' m.
Proof.
  intros Hne. unfold JS.map_delete.
  induction m as [| [k0 v0] m IH]; [done |].
  destruct (decide (k0 = k)) as [-> | Hk0].
  - rewrite filter_cons_False by (simpl; by intros ?). simpl.
    by rewrite decide_False.
  - rewrite filter_cons_True by done. simpl. by rewrite IH.
Qed.

Lemma selectedSliceName_selectNamedSlice name w :
  selectedSliceName (sliceService (selectNamedSlice name w)) = name.
Proof.
  unfold selectNamedSlice.
  destruct (JS.map_get name (namedSlices (sliceService w))); reflexivity.
Qed.

Lemma namedSlices_selectNamedSlice name w :
  namedSlices (sliceService (selectNamedSlice name w))
  = namedSlices (sliceService w).
Proof.
  unfold selectNamedSlice.
  destruct (JS.map_get name (namedSlices (sliceService w))); reflexivity.
Qed.

Lemma deleteButtonEnabled_false (m : SliceModule) :
  deleteButtonEnabled m = false
  ↔ selectedSliceName (sliceService (module_app m)) = ""
    ∨ selectedSliceName (sliceService (module_app m)) = FAVORITES_SLICE_NAME.
Proof.
  unfold deleteButtonEnabled.
  rewrite andb_false_iff, !bool_decide_eq_false.
  split; intros [E | E]; [left | right | left | right];
    first [by apply dec_stable | by intros ?].
Qed.

(** C7: the delete control is disabled when the selected slice name is
    empty or the favorites name, and a click on the disabled control
    changes nothing; with the favorites slice active, [deleteSlice]
    itself leaves the slices, the favorites slice among them, as they
    were. *)
Theorem delete_guards_favorites (m : SliceModule) :
  (deleteButtonEnabled m = false
   ↔ selectedSliceName (sliceService (module_app m)) = ""
     ∨ selectedSliceName (sliceService (module_app m))
       = FAVORITES_SLICE_NAME)
  ∧ (deleteButtonEnabled m = false → clickDelete m = m)
  ∧ (selectedSliceName (sliceService (module_app m)) = FAVORITES_SLICE_NAME
     → clickDelete m = m
       ∧ namedSlices (sliceService (module_app (deleteSlice m)))
         = namedSlices (sliceService (module_app m))).
Proof.
  assert (deleteButtonEnabled m = false → clickDelete m = m) as Hclick.
  { unfold clickDelete. by intros ->. }
  split_and!; [apply deleteButtonEnabled_false | done |].
  intros E. split.
  - apply Hclick, deleteButtonEnabled_false. by right.
  - unfold deleteSlice, selectSlice. simpl.
    rewrite namedSlices_selectNamedSlice. simpl.
    unfold deleteNamedSlice. rewrite E. by rewrite decide_True.
Qed.

(** C10: every invocation of [deleteSlice] deletes the slice named by
    the selected slice name and then selects the empty name: afterwards
    the selected slice name is the empty string, whichever slice was
    active, and the stored slices are those that [deleteNamedSlice]
    leaves at the name that was active; unless that name is the reserved
    one, it has no slice any more, and every other name has the slice it
    had. The rows and the fields of the widget are as before. *)
Theorem deleteSlice_no_active_slice (m : SliceModule) :
  let active := selectedSliceName (sliceService (module_app m)) in
  let m' := deleteSlice m in
  selectedSliceName (sliceService (module_app m')) = ""
  ∧ namedSlices (sliceService (module_app m'))
    = namedSlices (deleteNamedSlice active (sliceService (module_app m)))
  ∧ (active ≠ FAVORITES_SLICE_NAME →
     JS.map_get active (namedSlices (sliceService (module_app m'))) = None
     ∧ ∀ name, name ≠ active →
               JS.map_get name (namedSlices (sliceService (module_app m')))
               = JS.map_get name (namedSlices (sliceService (module_app m))))
  ∧ appState (module_app m') = appState (module_app m)
  ∧ sliceByFeatures m' = sliceByFeatures m
  ∧ sliceName m' = sliceName m.
Proof.
  intros active m'. subst m'. unfold deleteSlice, selectSlice. simpl.
  fold active.
  rewrite selectedSliceName_selectNamedSlice, namedSlices_selectNamedSlice.
  simpl. split_and!; [done | done | | | done | done].
  - intros Hfav. unfold deleteNamedSlice. rewrite decide_False by done.
    simpl. split; [apply map_get_delete_eq |].
    intros name Hname. by apply map_get_delete_ne.
  - unfold selectNamedSlice. simpl.
    by destruct (JS.map_get "" _).
Qed.

(** C5: with a name that is not empty, identifiers selected and no
    feature checkbox checked, the create action adds a slice under that
    name whose membership is the selected identifiers, makes it the
    selected slice with that membership as the selection, and empties
    the name input and the checkbox list. *)
Theorem create_slice_from_selection (m : SliceModule) :
  let ids := selectedIds (selectionService (module_app m)) in
  sliceName m ≠ "" →
  ids ≠ [] →
  selection_wf (selectionService (module_app m)) →
  sliceByFeatures m = [] →
  ∃ m',
    clickCreate m = Some m'
    ∧ handleClickCreate m = Some m'
    ∧ JS.map_get (sliceName m) (namedSlices (sliceService (module_app m')))
      = Some ids
    ∧ selectedSliceName (sliceService (module_app m')) = sliceName m
    ∧ selectedIds (selectionService (module_app m')) = ids
    ∧ sliceName m' = ""
    ∧ sliceByFeatures m' = [].
Proof.
  intros ids Hname Hids [Hnd _] Hboxes.
  assert (JS.truthy (createButtonEnabled m) = true) as Hen.
  { by apply createButtonEnabled_named. }
  unfold clickCreate. rewrite Hen.
  unfold handleClickCreate, anyCheckboxChecked. rewrite Hboxes. simpl.
  unfold selectSlice, selectNamedSlice. simpl.
  rewrite map_get_set_eq. eexists. split_and!; try reflexivity; simpl.
  - rewrite map_get_set_eq. by rewrite set_of_id.
  - fold ids. rewrite (set_of_id ids Hnd). by apply set_of_id.
Qed.

(** *** Favorite toggle *)

Lemma primarySelectedInputData_Some w data :
  primarySelectedInputData w = Some data →
  ∃ n, primarySelectedIndex w = Some n
       ∧ currentInputData (appState w) !! n = Some data
       ∧ indicesById (appState w) (id data) = Some n
       ∧ primarySelectedId (selectionService w) = Some (id data).
Proof.
  unfold primarySelectedInputData, primarySelectedIndex.
  destruct (primarySelectedId (selectionService w)) as [p |]; [| done].
  simpl. destruct (indicesById (appState w) p) as [n |] eqn:E; [| done].
  simpl. intros Hrow. exists n.
  apply indicesById_lookup in E as Hd. destruct Hd as (d & Hd & Hid).
  assert (d = data) as -> by congruence. subst p. done.
Qed.

(** The state after a toggle of a row that has an [isFavorited] entry. *)
Lemma toggleFavorited_step t n data b members :
  primarySelectedIndex (toolbar_app t) = Some n →
  currentInputData (appState (toolbar_app t)) !! n = Some data →
  isFavorited (meta data) = Some b →
  favoritesMembers (toolbar_app t) = Some members →
  let w := toolbar_app t in
  let members' :=
    if negb b then JS.set_add (id data) members
    else JS.set_delete (id data) members in
  toggleFavorited t
  = {| toolbar_app :=
         {| appState := setFavorited n (negb b) (appState w);
            selectionService :=
              if decide (selectedSliceName (sliceService w)
                         = FAVORITES_SLICE_NAME)
              then selectIds members' (selectionService w)
              else selectionService w;
            referenceSelectionService := referenceSelectionService w;
            sliceService :=
              {| namedSlices :=
                   JS.map_set FAVORITES_SLICE_NAME members'
                     (namedSlices (sliceService w));
                 selectedSliceName := selectedSliceName (sliceService w) |}
         |};
       highlightFavorite := negb b |}.
Proof.
  intros Hn Hrow Hb Hm. unfold favoritesMembers in Hm.
  unfold toggleFavorited. rewrite Hn, Hrow, Hb.
  destruct b; simpl;
    unfold with_slices, addIdsToSlice, removeIdsFromSlice; simpl;
    rewrite Hm; simpl;
    (case_decide as E;
     [unfold selectNamedSlice; simpl; rewrite map_get_set_eq; simpl;
      rewrite <- E; reflexivity
     | reflexivity]).
Qed.

Lemma getCurrentInputDataById_setFavorited a n b d :
  indicesById a (id d) = Some n →
  currentInputData a !! n = Some d →
  ∃ d', getCurrentInputDataById (setFavorited n b a) (id d) = Some d'
        ∧ id d' = id d ∧ isFavorited (meta d') = Some b.
Proof.
  intros Hn Hrow. unfold getCurrentInputDataById.
  rewrite indicesById_setFavorited, Hn. simpl.
  rewrite list_lookup_alter_eq, Hrow. simpl.
  eexists. split; [reflexivity |]. done.
Qed.

(** C3: one toggle of a primary-selected example that is not favorited
    sets its flag and adds its identifier to the favorites slice, where
    it then occurs once; a second toggle of the same example clears the
    flag and removes the identifier; the favorites slice stays free of
    duplicates; and when the favorites slice is the active one, each
    toggle selects it again, so that the selection is its new
    membership. *)
Theorem toggleFavorited_round_trip
    (t : LitSelectionToolbar) (data : IndexedInput) (members : list string) :
  let t1 := toggleFavorited t in
  let t2 := toggleFavorited t1 in
  let on := JS.set_add (id data) members in
  let off := JS.set_delete (id data) on in
  primarySelectedInputData (toolbar_app t) = Some data →
  isFavorited (meta data) = Some false →
  favoritesMembers (toolbar_app t) = Some members →
  NoDup members →
  (∃ d1, getCurrentInputDataById (appState (toolbar_app t1)) (id data)
         = Some d1
         ∧ isFavorited (meta d1) = Some true)
  ∧ favoritesMembers (toolbar_app t1) = Some on
  ∧ length (filter (λ i, i = id data) on) = 1%nat
  ∧ NoDup on
  ∧ (selectedSliceName (sliceService (toolbar_app t)) = FAVORITES_SLICE_NAME
     → selectedSliceName (sliceService (toolbar_app t1))
       = FAVORITES_SLICE_NAME
       ∧ selectedIds (selectionService (toolbar_app t1)) = on)
  ∧ (selectedSliceName (sliceService (toolbar_app t)) ≠ FAVORITES_SLICE_NAME
     → selectionService (toolbar_app t1) = selectionService (toolbar_app t))
  ∧ (primarySelectedId (selectionService (toolbar_app t1)) = Some (id data)
     → (∃ d2, getCurrentInputDataById (appState (toolbar_app t2)) (id data)
              = Some d2
              ∧ isFavorited (meta d2) = Some false)
       ∧ favoritesMembers (toolbar_app t2) = Some off
       ∧ (id data ∉ off) ∧ NoDup off
       ∧ (selectedSliceName (sliceService (toolbar_app t))
          = FAVORITES_SLICE_NAME
          → selectedSliceName (sliceService (toolbar_app t2))
            = FAVORITES_SLICE_NAME
            ∧ selectedIds (selectionService (toolbar_app t2)) = off)).
Proof.
  intros t1 t2 on off Hdata Hflag Hm Hnd.
  destruct (primarySelectedInputData_Some _ _ Hdata)
    as (n & Hn & Hrow & Hidx & Hprim).
  assert (NoDup on) as Hon by by apply set_add_NoDup.
  assert (NoDup off) as Hoff by by apply set_delete_NoDup.
  pose proof (toggleFavorited_step t n data false members Hn Hrow Hflag Hm)
    as E1. simpl in E1. fold t1 on in E1.
  destruct (getCurrentInputDataById_setFavorited
              (appState (toolbar_app t)) n true data Hidx Hrow)
    as (d1 & Hd1 & Hid1 & Hf1).
  assert (favoritesMembers (toolbar_app t1) = Some on) as Hm1.
  { rewrite E1. unfold favoritesMembers. simpl. apply map_get_set_eq. }
  split_and!.
  - exists d1. by rewrite E1.
  - done.
  - apply NoDup_occurs_once; [done |]. apply set_add_elem. by left.
  - done.
  - intros Hact. rewrite E1. simpl. split; [done |].
    rewrite decide_True by done. simpl. by apply set_of_id.
  - intros Hact. rewrite E1. simpl. by rewrite decide_False.
  - intros Hprim1.
    assert (primarySelectedIndex (toolbar_app t1) = Some n) as Hn1.
    { unfold primarySelectedIndex. rewrite Hprim1. simpl.
      rewrite E1. simpl. by rewrite indicesById_setFavorited. }
    assert (currentInputData (appState (toolbar_app t1)) !! n = Some d1)
      as Hrow1.
    { unfold getCurrentInputDataById in Hd1.
      rewrite indicesById_setFavorited, Hidx in Hd1. simpl in Hd1.
      by rewrite E1. }
    pose proof (toggleFavorited_step t1 n d1 true on Hn1 Hrow1 Hf1 Hm1)
      as E2. simpl in E2. fold t2 in E2. rewrite Hid1 in E2. fold off in E2.
    assert (indicesById (appState (toolbar_app t1)) (id d1) = Some n) as Hidx1.
    { rewrite E1, Hid1. simpl. by rewrite indicesById_setFavorited. }
    destruct (getCurrentInputDataById_setFavorited
                (appState (toolbar_app t1)) n false d1 Hidx1 Hrow1)
      as (d2 & Hd2 & Hid2 & Hf2).
    rewrite Hid1 in Hd2.
    split_and!.
    + exists d2. by rewrite E2.
    + rewrite E2. unfold favoritesMembers. simpl. apply map_get_set_eq.
    + intros Hin%set_delete_elem. by destruct Hin.
    + done.
    + intros Hact.
      assert (selectedSliceName (sliceService (toolbar_app t1))
              = FAVORITES_SLICE_NAME) as Hact1 by (by rewrite E1).
      rewrite E2. simpl. split; [done |].
      rewrite decide_True by done. simpl. by apply set_of_id.
Qed.

(** C9: without primary-selected input data, or when its [meta] has no
    [isFavorited] entry, [toggleFavorited] changes nothing: the rows,
    the slices, the active slice and the selection stay as they were. *)
Theorem toggleFavorited_noop (t : LitSelectionToolbar) :
  primarySelectedInputData (toolbar_app t) = None
  ∨ (∃ data, primarySelectedInputData (toolbar_app t) = Some data
             ∧ isFavorited (meta data) = None)
  → toggleFavorited t = t.
Proof.
  unfold primarySelectedInputData, toggleFavorited.
  destruct (primarySelectedIndex (toolbar_app t)) as [n |]; simpl; [| done].
  destruct (currentInputData (appState (toolbar_app t)) !! n) as [d |];
    [| done].
  intros [E | (data & E & F)]; [done |].
  injection E as ->. by rewrite F.
Qed.

End Properties.

(** ** The properties on the sample states *)

Ltac by_decide :=
  match goal with
  | |- ?P => apply (bool_decide_unpack P); vm_compute; exact I
  end.

(** The spec's paging scenario: from [c] in [a, b, c, d, e], "next" once
    yields [d] and "prev" twice yields [a]. *)
Example paging_scenario :
  (selectedIds ∘ selectionService
     <$> datasetSelectOffset (H := sample_collaborators) 1 (sample_paging "")
   = Some ["d"])
  ∧ (selectedIds ∘ selectionService
       <$> (datasetSelectOffset (H := sample_collaborators) (-1)
              (sample_paging "")
            ≫= datasetSelectOffset (H := sample_collaborators) (-1))
     = Some ["a"]).
Proof. split; vm_compute; reflexivity. Qed.

Lemma sequential_paging_wraps_witness :
  NoDup (id <$> sample_abcde)
  ∧ pagesTo (H := sample_collaborators) 1 (sample_paging "") 3
  ∧ pagesTo (H := sample_collaborators) (-1) (sample_paging "") 1.
Proof.
  assert (NoDup (id <$> sample_abcde)) as Hu by by_decide.
  split; [exact Hu |].
  destruct (@sequential_paging_wraps sample_collaborators (sample_paging "")
              "c" 2 (sample_row "c" None (Some false))
              Hu eq_refl eq_refl eq_refl eq_refl)
    as (_ & Hnext & Hprev & _).
  split; [exact Hnext | exact Hprev].
Defined.

(** C1 as stated fails: with [c] the one selected identifier, at index 2
    of [a, b, c, d, e], and the primary selection null, in a state that
    keeps the invariants of the selection, "next" does not select the
    identifier at index 3 nor "prev" the one at index 1. The handler
    looks for [primarySelectedId]; [findIndex] gives [-1], so "next"
    computes [(-1 + 1 + 5) % 5 = 0] and selects [a], and "prev" computes
    [(-1 - 1 + 5) % 5 = 3] and selects [d]. *)
Lemma sequential_paging_counterexample :
  selection_wf (selectionService sample_primary_null)
  ∧ selection_in_dataset sample_primary_null
  ∧ selectedIds (selectionService sample_primary_null) = ["c"]
  ∧ currentInputData (appState sample_primary_null) !! 2%nat
    = Some (sample_row "c" None (Some false))
  ∧ ¬ pagesTo (H := sample_collaborators) 1 sample_primary_null 3
  ∧ ¬ pagesTo (H := sample_collaborators) (-1) sample_primary_null 1.
Proof.
  split_and!.
  - split; [by_decide | intros p Hp; discriminate Hp].
  - intros i ->%list_elem_of_singleton. by_decide.
  - reflexivity.
  - reflexivity.
  - intros (next & w' & Hrow & Hstep & Hsel).
    vm_compute in Hstep. injection Hstep as <-.
    vm_compute in Hrow. injection Hrow as <-. discriminate Hsel.
  - intros (prev & w' & Hrow & Hstep & Hsel).
    vm_compute in Hstep. injection Hstep as <-.
    vm_compute in Hrow. injection Hrow as <-. discriminate Hsel.
Qed.

(** C2 as stated fails: from the empty selection over the two pairs, one
    click on "next" does not make [child1] and [parent1] the primary
    selections. Both primary selections are null, so [selectedPairIndex]
    is [-1] and [start] is [0]; [nextPairIndex] is [(0 + 1 + 2) % 2 = 1],
    and [idPairs[1]] is [[child2, parent2]]. *)
Lemma pair_next_from_empty_counterexample :
  ¬ pairsTo (H := sample_collaborators) 1 sample_pairing "child1" "parent1".
Proof.
  intros (w' & Hstep & _ & Hchild & _).
  vm_compute in Hstep. injection Hstep as <-. discriminate Hchild.
Qed.

Lemma pair_next_from_empty_selection_witness :
  selectedIds (selectionService sample_pairing) = []
  ∧ pairsTo (H := sample_collaborators) 1 sample_pairing "child2" "parent2".
Proof.
  split; [reflexivity |].
  assert (selection_wf sample_none) as Hwf.
  { split; [constructor | intros p Hp; discriminate Hp]. }
  destruct (@pair_next_from_empty_selection sample_collaborators
              sample_pairing "child1" "parent1" "child2" "parent2" None None
              eq_refl Hwf eq_refl eq_refl)
    as (_ & _ & Hpairs & _); [discriminate | discriminate | exact Hpairs].
Defined.

Lemma toggleFavorited_round_trip_witness :
  let t := {| toolbar_app := sample_paging "Favorites";
              highlightFavorite := false |} in
  let t1 := toggleFavorited (H := sample_collaborators) t in
  let t2 := toggleFavorited (H := sample_collaborators) t1 in
  favoritesMembers (H := sample_collaborators) (toolbar_app t1)
  = Some ["a"; "c"]
  ∧ selectedIds (selectionService (toolbar_app t1)) = ["a"; "c"]
  ∧ favoritesMembers (H := sample_collaborators) (toolbar_app t2) = Some ["a"]
  ∧ selectedIds (selectionService (toolbar_app t2)) = ["a"].
Proof.
  intros t t1 t2.
  assert (NoDup ["a"]) as Hnd by by_decide.
  destruct (@toggleFavorited_round_trip sample_collaborators t
              (sample_row "c" None (Some false)) ["a"]
              eq_refl eq_refl eq_refl Hnd)
    as (_ & Hon & _ & _ & Hsel1 & _ & Hsecond).
  destruct (Hsel1 eq_refl) as [_ Hsel1'].
  destruct (Hsecond eq_refl) as (_ & Hoff & _ & _ & Hsel2).
  destruct (Hsel2 eq_refl) as [_ Hsel2'].
  split_and!; [exact Hon | exact Hsel1' | exact Hoff | exact Hsel2'].
Defined.

Lemma selectRelated_union_witness :
  selectedIds (selectionService sample_related) ≠ []
  ∧ NoDup (selectedIds (selectionService
                          (selectRelated (H := sample_collaborators)
                             sample_related)))
  ∧ "b" ∈ selectedIds (selectionService
                         (selectRelated (H := sample_collaborators)
                            sample_related)).
Proof.
  assert (selectedIds (selectionService sample_related) ≠ []) as Hne
    by discriminate.
  destruct (@selectRelated_union sample_collaborators sample_related Hne)
    as (Hnd & Hsup & _).
  split_and!; [exact Hne | exact Hnd |].
  apply Hsup. by_decide.
Defined.

Lemma create_slice_from_selection_witness :
  sliceName sample_editor ≠ ""
  ∧ ∃ m', handleClickCreate (H := sample_collaborators) sample_editor = Some m'
          ∧ JS.map_get "mine" (namedSlices (sliceService (module_app m')))
            = Some ["b"; "d"]
          ∧ selectedSliceName (sliceService (module_app m')) = "mine".
Proof.
  assert (sliceName sample_editor ≠ "") as Hname by discriminate.
  assert (selection_wf (selectionService (module_app sample_editor))) as Hwf.
  { split; [by_decide |]. intros p [= <-]. by_decide. }
  split; [exact Hname |].
  destruct (@create_slice_from_selection sample_collaborators sample_editor
              Hname) as (m' & _ & Hcreate & Hget & Hact & _);
    [discriminate | exact Hwf | reflexivity |].
  exists m'. split_and!; [exact Hcreate | exact Hget | exact Hact].
Defined.

Lemma navigation_divisors_nonzero_witness :
  selection_in_dataset (sample_paging "")
  ∧ is_Some (datasetNextIndex 1 (sample_paging "")).
Proof.
  assert (selection_in_dataset (sample_paging "")) as Hin.
  { intros i ->%list_elem_of_singleton. by_decide. }
  split; [exact Hin |].
  destruct (navigation_divisors_nonzero (sample_paging "") Hin)
    as (_ & Harrows & _).
  destruct (Harrows eq_refl) as (_ & _ & Hrem). apply Hrem.
Defined.

Lemma toggleFavorited_noop_witness :
  let t := {| toolbar_app := sample_pairing; highlightFavorite := false |} in
  primarySelectedInputData (toolbar_app t) = None
  ∧ toggleFavorited (H := sample_collaborators) t = t.
Proof.
  intros t. split; [reflexivity |].
  apply (@toggleFavorited_noop sample_collaborators t). left. reflexivity.
Defined.

Lemma deleteSlice_no_active_slice_witness :
  selectedSliceName
    (sliceService
       (module_app (deleteSlice (H := sample_collaborators)
                      sample_editor_active))) = ""
  ∧ JS.map_get "mine"
      (namedSlices
         (sliceService
            (module_app (deleteSlice (H := sample_collaborators)
                           sample_editor_active)))) = None
  ∧ JS.map_get "Favorites"
      (namedSlices
         (sliceService
            (module_app (deleteSlice (H := sample_collaborators)
                           sample_editor_active)))) = Some ["a"].
Proof.
  destruct (@deleteSlice_no_active_slice sample_collaborators
              sample_editor_active) as (Hname & _ & Hdel & _).
  destruct Hdel as [Hgone Hkept]; [discriminate |].
  split_and!; [exact Hname | exact Hgone |].
  rewrite Hkept by discriminate. reflexivity.
Defined.

Lemma delete_guards_favorites_witness :
  let m := {| module_app := sample_paging "Favorites";
              sliceByFeatures := []; sliceName := "" |} in
  deleteButtonEnabled (H := sample_collaborators) m = false
  ∧ clickDelete (H := sample_collaborators) m = m.
Proof.
  intros m.
  destruct (@delete_guards_favorites sample_collaborators m)
    as (Hdis & _ & Hfav).
  split; [apply Hdis; by right | apply (Hfav eq_refl)].
Defined.

(** ** Further properties of the handlers *)

Section MoreProperties.
Context `{Collaborators}.

(** *** Arithmetic of the cyclic controls *)

Lemma mod_shift_ne (i r n : nat) :
  (i < n)%nat → (1 ≤ r)%nat → (r < n)%nat → ((i + r) mod n ≠ i)%nat.
Proof.
  intros Hi Hr Hn. destruct (decide (i + r < n)%nat) as [Hlt | Hge].
  - rewrite Nat.mod_small by done. lia.
  - replace (i + r)%nat with ((i + r - n) + 1 * n)%nat by lia.
    rewrite Nat.Div0.mod_add, Nat.mod_small; lia.
Qed.

Lemma mod_next_prev (i n : nat) :
  (i < n)%nat → (((i + 1) mod n + n - 1) mod n = i)%nat.
Proof.
  intros Hi. destruct (decide (i + 1 < n)%nat) as [Hlt | Hge].
  - rewrite (Nat.mod_small (i + 1)) by done.
    replace (i + 1 + n - 1)%nat with (i + 1 * n)%nat by lia.
    rewrite Nat.Div0.mod_add, Nat.mod_small; lia.
  - replace (i + 1)%nat with n by lia. rewrite Nat.Div0.mod_same.
    rewrite Nat.mod_small; lia.
Qed.

Lemma mod_prev_next (i n : nat) :
  (i < n)%nat → (((i + n - 1) mod n + 1) mod n = i)%nat.
Proof.
  intros Hi. destruct (decide (i = 0)%nat) as [-> | Hpos].
  - rewrite (Nat.mod_small (0 + n - 1)) by lia.
    replace (0 + n - 1 + 1)%nat with n by lia. apply Nat.Div0.mod_same.
  - replace (i + n - 1)%nat with ((i - 1) + 1 * n)%nat by lia.
    rewrite Nat.Div0.mod_add, (Nat.mod_small (i - 1)) by lia.
    rewrite Nat.mod_small; lia.
Qed.

Lemma findIndex_from_absent {A} (p : A → bool) (l : list A) k :
  (∀ y, y ∈ l → p y = false) → JS.findIndex_from p l k = -1.
Proof.
  revert k. induction l as [| a l IH]; intros k Hall; [done |]. simpl.
  rewrite Hall by apply list_elem_of_here.
  apply IH. intros y Hy. apply Hall. by apply list_elem_of_further.
Qed.

Lemma findIndex_from_range {A} (p : A → bool) (l : list A) k :
  JS.findIndex_from p l k = -1
  ∨ k ≤ JS.findIndex_from p l k < k + Z.of_nat (length l).
Proof.
  revert k. induction l as [| a l IH]; intros k; simpl; [by left |].
  destruct (p a); [right; lia |].
  destruct (IH (k + 1)) as [-> | ?]; [by left | right; lia].
Qed.

Lemma findIndex_string (l : list string) (i : nat) (p : string) :
  NoDup l → l !! i = Some p →
  JS.findIndex (λ x, bool_decide (Some x = Some p)) l = Z.of_nat i.
Proof.
  intros Hnd Hi. unfold JS.findIndex.
  rewrite (findIndex_from_first _ _ i p); [lia | done | |].
  - by apply bool_decide_eq_true.
  - intros j y Hj Hy. apply bool_decide_eq_false. intros [= ->].
    assert (j = i) by (by apply (NoDup_lookup l j i p)). lia.
Qed.

(** *** Primary-selection paging *)

Lemma primaryMovesTo_index (w : App) (p : string) (i : nat)
    (offset : Z) (k : nat) :
  NoDup (selectedIds (selectionService w)) →
  primarySelectedId (selectionService w) = Some p →
  selectedIds (selectionService w) !! i = Some p →
  Z.of_nat i + offset + Z.of_nat (length (selectedIds (selectionService w)))
  = Z.of_nat k →
  primaryMovesTo offset w (k mod length (selectedIds (selectionService w)))%nat.
Proof.
  intros Hnd Hp Hi Hk.
  assert (length (selectedIds (selectionService w)) ≠ 0%nat) as Hn
    by (apply lookup_lt_Some in Hi; lia).
  destruct (lookup_lt_is_Some_2 (selectedIds (selectionService w))
              (k mod length (selectedIds (selectionService w)))%nat)
    as [x Hx]; [by apply Nat.mod_upper_bound |].
  exists x. split; [done |].
  unfold primarySelectOffset, primaryNextIndex.
  rewrite Hp, (findIndex_string _ i p Hnd Hi), Hk, rem_of_nat by done.
  simpl. rewrite at_index_of_nat, Hx. simpl.
  unfold with_selection, setPrimarySelection.
  rewrite decide_True; [done |]. by apply list_elem_of_lookup_2 in Hx.
Qed.

(** X1: with the primary selection at index [i] of a selection of [n]
    identifiers, "next" makes the identifier at index [(i+1) mod n] the
    primary selection and "prev" the one at [(i-1+n) mod n]; the selected
    set and the rest of the state stay as they are. *)
Theorem primary_paging_cycles (w : App) (p : string) (i : nat) :
  let n := length (selectedIds (selectionService w)) in
  NoDup (selectedIds (selectionService w)) →
  primarySelectedId (selectionService w) = Some p →
  selectedIds (selectionService w) !! i = Some p →
  primaryMovesTo 1 w ((i + 1) mod n)%nat
  ∧ primaryMovesTo (-1) w ((i + n - 1) mod n)%nat.
Proof.
  intros n Hnd Hp Hi.
  assert (i < n)%nat as Hlt by (by apply lookup_lt_Some in Hi).
  split.
  - replace ((i + 1) mod n)%nat with ((i + 1 + n) mod n)%nat.
    + apply (primaryMovesTo_index w p i 1 (i + 1 + n)); [done .. | lia].
    + replace (i + 1 + n)%nat with (i + 1 + 1 * n)%nat by lia.
      apply Nat.Div0.mod_add.
  - apply (primaryMovesTo_index w p i (-1) (i + n - 1)); [done .. | lia].
Qed.

(** X2: the random control of the primary paging, whose offset is drawn
    from [1] to [n - 1], never leaves the primary selection where it
    is. *)
Theorem primary_random_moves (w : App) (p : string) (i : nat) (r : nat) :
  let n := length (selectedIds (selectionService w)) in
  NoDup (selectedIds (selectionService w)) →
  primarySelectedId (selectionService w) = Some p →
  selectedIds (selectionService w) !! i = Some p →
  (1 ≤ r)%nat → (r < n)%nat →
  ∃ x w',
    primarySelectOffset (Z.of_nat r) w = Some w'
    ∧ primarySelectedId (selectionService w') = Some x
    ∧ x ∈ selectedIds (selectionService w)
    ∧ x ≠ p.
Proof.
  intros n Hnd Hp Hi Hr Hn.
  assert (i < n)%nat as Hlt by (by apply lookup_lt_Some in Hi).
  destruct (primaryMovesTo_index w p i (Z.of_nat r) (i + r + n) Hnd Hp Hi)
    as (x & Hx & Hstep); [lia |].
  fold n in Hx. replace (i + r + n)%nat with (i + r + 1 * n)%nat in Hx by lia.
  rewrite Nat.Div0.mod_add in Hx.
  eexists x, _. split_and!; [exact Hstep | done | |].
  - by apply list_elem_of_lookup_2 in Hx.
  - intros ->. apply (mod_shift_ne i r n); [done .. |].
    by apply (NoDup_lookup _ _ _ p Hnd).
Qed.

(** X3: "next" followed by "prev" on the primary paging controls, and
    "prev" followed by "next", lead back to the state they started
    from. *)
Theorem primary_next_prev_round_trip (w : App) (p : string) (i : nat) :
  NoDup (selectedIds (selectionService w)) →
  primarySelectedId (selectionService w) = Some p →
  selectedIds (selectionService w) !! i = Some p →
  primarySelectOffset 1 w ≫= primarySelectOffset (-1) = Some w
  ∧ primarySelectOffset (-1) w ≫= primarySelectOffset 1 = Some w.
Proof.
  intros Hnd Hp Hi.
  set (n := length (selectedIds (selectionService w))).
  assert (i < n)%nat as Hlt by (by apply lookup_lt_Some in Hi).
  assert (∀ x, with_selection
                 (λ s, {| selectedIds := selectedIds s;
                          primarySelectedId := Some p |})
                 (with_selection
                    (λ s, {| selectedIds := selectedIds s;
                             primarySelectedId := Some x |}) w) = w) as Hback.
  { intros x. destruct w as [a [sel prim] ref sl]. simpl in *. by subst. }
  assert (primaryMovesTo 1 w ((i + 1) mod n)%nat) as Hnext.
  { replace ((i + 1) mod n)%nat with ((i + 1 + 1 * n) mod n)%nat
      by apply Nat.Div0.mod_add.
    apply (primaryMovesTo_index w p i 1 (i + 1 + 1 * n)); [done .. | lia]. }
  assert (primaryMovesTo (-1) w ((i + n - 1) mod n)%nat) as Hprev.
  { apply (primaryMovesTo_index w p i (-1) (i + n - 1)); [done .. | lia]. }
  split.
  - destruct Hnext as (x & Hx & ->). simpl.
    destruct (primaryMovesTo_index
                (with_selection
                   (λ s, {| selectedIds := selectedIds s;
                            primarySelectedId := Some x |}) w)
                x ((i + 1) mod n) (-1)
                ((i + 1) mod n + n - 1) Hnd eq_refl Hx) as (y & Hy & ->).
    { simpl. fold n. assert ((i + 1) mod n < n)%nat
        by (apply Nat.mod_upper_bound; lia). lia. }
    simpl in Hy. fold n in Hy. rewrite mod_next_prev in Hy by done.
    assert (y = p) as -> by congruence. by rewrite Hback.
  - destruct Hprev as (x & Hx & ->). simpl.
    destruct (primaryMovesTo_index
                (with_selection
                   (λ s, {| selectedIds := selectedIds s;
                            primarySelectedId := Some x |}) w)
                x ((i + n - 1) mod n) 1
                ((i + n - 1) mod n + 1 + n) Hnd eq_refl Hx) as (y & Hy & ->).
    { simpl. fold n. lia. }
    simpl in Hy. fold n in Hy.
    replace ((i + n - 1) mod n + 1 + n)%nat
      with ((i + n - 1) mod n + 1 + 1 * n)%nat in Hy by lia.
    rewrite Nat.Div0.mod_add, mod_prev_next in Hy by done.
    assert (y = p) as -> by congruence. by rewrite Hback.
Qed.

(** *** Dataset paging and the lucky button *)

(** X4: the random control of the dataset paging, whose offset is drawn
    from [1] to [N - 1], replaces the selection with the identifier of
    another row than the current one. *)
Theorem dataset_random_moves
    (w : App) (s : string) (i : nat) (ex : IndexedInput) (r : nat) :
  let N := length (currentInputData (appState w)) in
  NoDup (id <$> currentInputData (appState w)) →
  primarySelectedId (selectionService w) = Some s →
  currentInputData (appState w) !! i = Some ex → id ex = s →
  (1 ≤ r)%nat → (r < N)%nat →
  ∃ next w',
    datasetSelectOffset (Z.of_nat r) w = Some w'
    ∧ next ∈ currentInputData (appState w)
    ∧ selectedIds (selectionService w') = [id next]
    ∧ id next ≠ s.
Proof.
  intros N Hu Hp Hrow Hid Hr HN.
  assert (i < N)%nat as Hlt by (by apply lookup_lt_Some in Hrow).
  destruct (pagesTo_index w s i ex (Z.of_nat r) (i + r + 1 * N) Hu Hp Hrow Hid)
    as (next & w' & Hnext & Hstep & Hsel); [lia |].
  fold N in Hnext. rewrite Nat.Div0.mod_add in Hnext.
  exists next, w'. split_and!; [done | | done |].
  - by apply list_elem_of_lookup_2 in Hnext.
  - intros Heq. apply (mod_shift_ne i r N); [done .. |].
    apply (NoDup_lookup _ _ _ s Hu);
      rewrite list_lookup_fmap, ?Hnext, ?Hrow; simpl; congruence.
Qed.

Lemma at_index_in_range {A} (l : list A) (z : Z) :
  0 ≤ z < Z.of_nat (length l) → ∃ x, JS.at_index l z = Some x ∧ x ∈ l.
Proof.
  intros Hz. unfold JS.at_index. rewrite decide_True by lia.
  destruct (lookup_lt_is_Some_2 l (Z.to_nat z)) as [x Hx]; [lia |].
  exists x. split; [done |]. by apply list_elem_of_lookup_2 in Hx.
Qed.

(** X5: on a dataset that is not empty the dataset paging handler fails
    for none of the offsets the controls pass ([-1], [1], and a random one
    from [1] on), whatever the primary selection is, and always selects
    one identifier of the dataset. *)
Theorem dataset_paging_total (w : App) (offset : Z) :
  currentInputData (appState w) ≠ [] →
  -1 ≤ offset →
  ∃ next,
    next ∈ currentInputData (appState w)
    ∧ datasetSelectOffset offset w
      = Some (with_selection (selectIds [id next]) w).
Proof.
  intros Hdata Hoff. unfold datasetSelectOffset, datasetNextIndex.
  set (idx := JS.findIndex _ _).
  set (N := Z.of_nat (length (currentInputData (appState w)))).
  assert (0 < N) as HN.
  { unfold N. destruct (currentInputData (appState w)); [done | simpl; lia]. }
  assert (-1 ≤ idx < N) as Hidx.
  { unfold idx, JS.findIndex.
    destruct (findIndex_from_range
                (λ ex, bool_decide (Some (id ex)
                                    = primarySelectedId (selectionService w)))
                (currentInputData (appState w)) 0) as [-> | ?]; fold N; lia. }
  unfold JS.rem. rewrite decide_False by lia. simpl.
  assert (0 ≤ Z.rem (idx + offset + N) N < N) as Hrem.
  { destruct (decide (0 ≤ idx + offset + N)) as [Hpos | Hneg].
    - apply Z.rem_bound_pos; lia.
    - assert (N = 1) as -> by lia. rewrite Z.rem_1_r. lia. }
  destruct (at_index_in_range (currentInputData (appState w))
              (Z.rem (idx + offset + N) N) Hrem) as (next & -> & Hin).
  by exists next.
Qed.

(** X6: when the primary selection is null or names no row of the
    dataset, "next" selects the first row; "prev" selects the row before
    the last one, and the only row of a dataset of one. *)
Theorem dataset_paging_primary_missing
    (w : App) (first : IndexedInput) (rest : list IndexedInput) :
  (∀ d, d ∈ currentInputData (appState w) →
        Some (id d) ≠ primarySelectedId (selectionService w)) →
  currentInputData (appState w) = first :: rest →
  datasetSelectOffset 1 w = Some (with_selection (selectIds [id first]) w)
  ∧ (rest = [] →
     datasetSelectOffset (-1) w
     = Some (with_selection (selectIds [id first]) w))
  ∧ (∀ d, (first :: rest) !! (length rest - 1)%nat = Some d → rest ≠ [] →
          datasetSelectOffset (-1) w
          = Some (with_selection (selectIds [id d]) w)).
Proof.
  intros Hmiss Hdata.
  assert (JS.findIndex
            (λ ex, bool_decide (Some (id ex)
                                = primarySelectedId (selectionService w)))
            (currentInputData (appState w)) = -1) as Hidx.
  { apply findIndex_from_absent. intros d Hd.
    apply bool_decide_eq_false. by apply Hmiss. }
  unfold datasetSelectOffset, datasetNextIndex. rewrite Hidx, Hdata.
  split_and!.
  - replace (-1 + 1 + Z.of_nat (length (first :: rest)))
      with (Z.of_nat (length (first :: rest))) by lia.
    rewrite (rem_of_nat (length (first :: rest)) (length (first :: rest)))
      by done.
    rewrite Nat.Div0.mod_same. done.
  - intros ->. done.
  - intros d Hd Hrest.
    replace (-1 + -1 + Z.of_nat (length (first :: rest)))
      with (Z.of_nat (length rest - 1)%nat)
      by (destruct rest; [done | simpl; lia]).
    rewrite rem_of_nat by done.
    rewrite Nat.mod_small by (destruct rest; [done | simpl; lia]).
    cbn [mbind option_bind]. rewrite at_index_of_nat, Hd. done.
Qed.

(** X7: the lucky button is on the page whenever nothing is selected,
    also over an empty dataset, where its handler fails for every number
    drawn; on a number that is an index of the dataset it selects the
    identifier of that row alone. *)
Theorem lucky_button_edge (w : App) :
  (selectedIds (selectionService w) = [] → luckyButtonRendered w = true)
  ∧ (currentInputData (appState w) = [] → ∀ r, selectRandom r w = None)
  ∧ (∀ (r : nat) d,
       currentInputData (appState w) !! r = Some d →
       ∃ w', selectRandom (Z.of_nat r) w = Some w'
             ∧ selectedIds (selectionService w') = [id d]).
Proof.
  split_and!.
  - intros Hsel. unfold luckyButtonRendered. by rewrite Hsel.
  - intros Hdata r. unfold selectRandom, JS.at_index. rewrite Hdata.
    case_decide; [| done]. by rewrite lookup_nil.
  - intros r d Hd. unfold selectRandom. rewrite at_index_of_nat, Hd. simpl.
    eexists. split; [reflexivity |]. simpl. apply set_of_singleton.
Qed.

(** *** Pair controls *)

Lemma pairMovesTo_index (w : App) (offset : Z) (j : nat) :
  pairNextIndex offset w = Some (Z.of_nat j) →
  (j < length (selectedIdPairs w))%nat →
  pairMovesTo offset w j.
Proof.
  intros Hnext Hj.
  destruct (lookup_lt_is_Some_2 (selectedIdPairs w) j Hj) as [[c p] Hpair].
  unfold pairMovesTo, pairSelectOffset. rewrite Hnext. simpl.
  rewrite at_index_of_nat, Hpair. simpl.
  exists c, p. eexists. split_and!; [done | reflexivity | done | done].
Qed.

Lemma selectedPairIndex_found (w : App) (k : nat) (c p : string) :
  NoDup (selectedIdPairs w) →
  selectedIdPairs w !! k = Some (c, p) →
  primarySelectedId (selectionService w) = Some c →
  primarySelectedId (referenceSelectionService w) = Some p →
  selectedPairIndex w = Z.of_nat k.
Proof.
  intros Hnd Hk Hc Hp. unfold selectedPairIndex, JS.findIndex.
  rewrite Hc, Hp.
  rewrite (findIndex_from_first _ _ k (c, p)); [lia | done | |].
  - by apply bool_decide_eq_true.
  - intros j y Hj Hy. apply bool_decide_eq_false. intros ->.
    assert (j = k) by (by apply (NoDup_lookup _ j k (c, p) Hnd)). lia.
Qed.

(** X8: when the primary selection and the primary selection of the
    reference are the pair at index [k] of a list of [n] pairs, "next"
    makes the pair at index [(k+1) mod n] the two primary selections and
    "prev" the pair at [(k-1+n) mod n]. *)
Theorem pair_paging_cycles (w : App) (k : nat) (c p : string) :
  let n := length (selectedIdPairs w) in
  NoDup (selectedIdPairs w) →
  selectedIdPairs w !! k = Some (c, p) →
  primarySelectedId (selectionService w) = Some c →
  primarySelectedId (referenceSelectionService w) = Some p →
  pairMovesTo 1 w ((k + 1) mod n)%nat
  ∧ pairMovesTo (-1) w ((k + n - 1) mod n)%nat.
Proof.
  intros n Hnd Hk Hc Hp.
  assert (k < n)%nat as Hlt by (by apply lookup_lt_Some in Hk).
  assert (∀ offset, pairNextIndex offset w
                    = JS.rem (Z.of_nat k + offset + Z.of_nat n) (Z.of_nat n))
    as Hnext.
  { intros offset. unfold pairNextIndex.
    rewrite (selectedPairIndex_found w k c p) by done.
    replace (Z.of_nat k =? -1) with false by (symmetry; apply Z.eqb_neq; lia).
    done. }
  split; apply pairMovesTo_index;
    try (apply Nat.mod_upper_bound; fold n; lia); rewrite Hnext.
  - replace (Z.of_nat k + 1 + Z.of_nat n) with (Z.of_nat (k + 1 + 1 * n)) by lia.
    rewrite rem_of_nat by lia. by rewrite Nat.Div0.mod_add.
  - replace (Z.of_nat k + -1 + Z.of_nat n) with (Z.of_nat (k + n - 1)) by lia.
    by rewrite rem_of_nat by lia.
Qed.

(** X9: when no valid pair is selected, the cycle starts at index [0]
    and then moves by the offset: of [n] pairs, "next" makes the pair at
    index [1 mod n] the two primary selections, the first pair only if
    it is the only one, and "prev" the last pair. *)
Theorem pair_paging_unselected (w : App) :
  let n := length (selectedIdPairs w) in
  selectedPairIndex w = -1 →
  selectedIdPairs w ≠ [] →
  pairMovesTo 1 w (1 mod n)%nat
  ∧ pairMovesTo (-1) w (n - 1)%nat.
Proof.
  intros n Hidx Hne.
  assert (0 < n)%nat as Hn.
  { unfold n. destruct (selectedIdPairs w); [done | simpl; lia]. }
  assert (∀ offset, pairNextIndex offset w
                    = JS.rem (0 + offset + Z.of_nat n) (Z.of_nat n)) as Hnext.
  { intros offset. unfold pairNextIndex. by rewrite Hidx. }
  split; apply pairMovesTo_index; fold n;
    try (apply Nat.mod_upper_bound; lia); try lia; rewrite Hnext.
  - replace (0 + 1 + Z.of_nat n) with (Z.of_nat (1 + 1 * n)) by lia.
    rewrite rem_of_nat by lia. by rewrite Nat.Div0.mod_add.
  - replace (0 + -1 + Z.of_nat n) with (Z.of_nat (n - 1)) by lia.
    rewrite rem_of_nat by lia. by rewrite Nat.mod_small by lia.
Qed.

Lemma selectedIdPairs_elem (w : App) (c p : string) :
  (c, p) ∈ selectedIdPairs w
  ↔ ∃ d, d ∈ selectedOrAllInputData w ∧ id d = c
         ∧ parentId (meta d) = Some p ∧ p ≠ "".
Proof.
  unfold selectedIdPairs. rewrite list_elem_of_omap. split.
  - intros (d & [Ht Hd]%list_elem_of_filter & Hpair).
    destruct (parentId (meta d)) as [q |] eqn:Hq; [| done].
    simpl in *. injection Hpair as <- <-. by exists d.
  - intros (d & Hd & <- & Hq & Hp). exists d. split.
    + apply list_elem_of_filter. rewrite Hq. done.
    + by rewrite Hq.
Qed.

Lemma selectedOrAllInputData_selected (w : App) (d : IndexedInput) :
  selectedIds (selectionService w) ≠ [] →
  d ∈ selectedOrAllInputData w
  ↔ ∃ i, i ∈ selectedIds (selectionService w)
         ∧ getCurrentInputDataById (appState w) i = Some d.
Proof.
  intros Hne. unfold selectedOrAllInputData.
  destruct (selectedIds (selectionService w)) as [| x l]; [done |].
  rewrite list_elem_of_omap. done.
Qed.

Lemma getCurrentInputDataById_in (a : AppState) (i : string) d :
  getCurrentInputDataById a i = Some d →
  d ∈ currentInputData a ∧ id d = i.
Proof.
  unfold getCurrentInputDataById.
  destruct (indicesById a i) as [n |] eqn:Hn; [| done]. simpl. intros Hd.
  apply indicesById_lookup in Hn as (d0 & Hd0 & Hid0).
  assert (d0 = d) as -> by congruence.
  split; [by apply list_elem_of_lookup_2 in Hd | done].
Qed.

Lemma getCurrentInputDataById_unique (a : AppState) d :
  NoDup (id <$> currentInputData a) →
  d ∈ currentInputData a →
  getCurrentInputDataById a (id d) = Some d.
Proof.
  intros Hu Hd. unfold getCurrentInputDataById.
  destruct (indicesById a (id d)) as [n |] eqn:Hn.
  - simpl. apply indicesById_lookup in Hn as (d0 & Hd0 & Hid0).
    apply list_elem_of_lookup in Hd as [m Hm].
    assert (n = m) as ->; [| congruence].
    apply (NoDup_lookup _ _ _ (id d) Hu);
      rewrite list_lookup_fmap, ?Hd0, ?Hm; simpl; congruence.
  - exfalso. unfold indicesById in Hn.
    destruct (list_find _ _) as [[? ?] |] eqn:Hf; [done |].
    apply list_find_None in Hf. rewrite Forall_forall in Hf.
    by apply (Hf d Hd).
Qed.

(** X10: a cycle that starts from the empty selection selects the
    members of all pairs, and the pairs that the controls offer
    afterwards are the pairs they offered before. *)
Theorem pair_list_stable (w w' : App) (offset : Z) :
  NoDup (id <$> currentInputData (appState w)) →
  selectedIds (selectionService w) = [] →
  pairSelectOffset offset w = Some w' →
  ∀ pair, pair ∈ selectedIdPairs w' ↔ pair ∈ selectedIdPairs w.
Proof.
  intros Hu Hsel Hstep.
  unfold pairSelectOffset in Hstep. rewrite Hsel in Hstep.
  destruct (pairNextIndex offset w) as [j |]; [| done]. simpl in Hstep.
  destruct (JS.at_index (selectedIdPairs w) j) as [[c p] |] eqn:Hat; [| done].
  simpl in Hstep. injection Hstep as <-.
  assert ((c, p) ∈ selectedIdPairs w) as Hcp.
  { unfold JS.at_index in Hat. case_decide; [| done].
    by apply list_elem_of_lookup_2 in Hat. }
  set (flat := JS.set_of (flatten (pairArray <$> selectedIdPairs w))).
  assert (∀ x, x ∈ flat ↔ ∃ pair, pair ∈ selectedIdPairs w
                                  ∧ (x = pair.1 ∨ x = pair.2)) as Hflat.
  { intros x. unfold flat, flatten.
    rewrite set_of_elem, list_elem_of_join. split.
    - intros (l & Hx & (pair & -> & Hpair)%list_elem_of_fmap).
      exists pair. split; [done |]. unfold pairArray in Hx.
      rewrite !elem_of_cons, elem_of_nil in Hx. tauto.
    - intros (pair & Hpair & Hx). exists (pairArray pair). split.
      + unfold pairArray. rewrite !elem_of_cons. tauto.
      + apply list_elem_of_fmap. by exists pair. }
  assert (c ∈ flat) as Hc by (apply Hflat; exists (c, p); auto).
  set (w'' := with_reference _ _).
  assert (selectedIds (selectionService w'') = flat) as Hsel''.
  { unfold w''. simpl. fold flat. by rewrite decide_True. }
  assert (appState w'' = appState w) as Happ by done.
  assert (selectedIds (selectionService w'') ≠ []) as Hne.
  { rewrite Hsel''. intros E. rewrite E in Hc. by apply elem_of_nil in Hc. }
  intros [c' p']. rewrite !selectedIdPairs_elem. split.
  - intros (d & Hd & Hrest). exists d. split; [| done].
    apply (selectedOrAllInputData_selected _ _ Hne) in Hd as (i & _ & Hd).
    rewrite Happ in Hd. apply getCurrentInputDataById_in in Hd as [Hd _].
    unfold selectedOrAllInputData. by rewrite Hsel.
  - intros (d & Hd & Hid & Hq & Hp'). exists d. split; [| done].
    unfold selectedOrAllInputData in Hd. rewrite Hsel in Hd.
    apply (selectedOrAllInputData_selected _ _ Hne). exists (id d). split.
    + rewrite Hsel''. apply Hflat. exists (c', p'). split; [| by left].
      apply selectedIdPairs_elem. exists d.
      unfold selectedOrAllInputData. by rewrite Hsel.
    + rewrite Happ. by apply getCurrentInputDataById_unique.
Qed.

(** *** Related-selection expansion *)

Lemma parentLink_rtc_step (a : AppState) (x y s : string) :
  parentLink a x y → rtc (parentLink a) x s →
  x = s ∨ rtc (parentLink a) y s.
Proof.
  intros Hxy Hxs. destruct Hxs as [| x z s Hxz Hzs]; [by left |].
  right. unfold parentLink in *. by assert (z = y) as -> by congruence.
Qed.

(** X11: the selection that [selectRelated] makes is closed under parent
    links: with a selected identifier, the parent that its row names is
    selected too. *)
Theorem selectRelated_parent_closed (w : App) (x y : string) :
  x ∈ selectedIds (selectionService (selectRelated w)) →
  parentLink (appState w) x y →
  y ∈ selectedIds (selectionService (selectRelated w)).
Proof.
  unfold selectRelated. simpl.
  rewrite !set_of_elem, !elem_of_app, !findAllParents_elem,
    !findAllChildren_elem.
  setoid_rewrite getAncestry_rtc.
  intros [(s & Hs & Hsx) | [Hx | (d & anc & Hd & <- & Hanc & Hsel)]] Hxy.
  - left. exists s. split; [done |].
    eapply rtc_r; [exact Hsx | exact Hxy].
  - left. exists x. split; [done |]. by apply rtc_once.
  - destruct (parentLink_rtc_step _ _ _ _ Hxy Hanc) as [Heq | Hyanc].
    + left. exists anc. split; [done |]. rewrite <- Heq. by apply rtc_once.
    + right. destruct Hyanc as [| y z anc Hyz Hzanc]; [by left |].
      right. apply parentLink_in_dataset in Hyz as Hy.
      apply list_elem_of_fmap in Hy as (d' & -> & Hd').
      exists d', anc. split_and!; [done | done | | done].
      by eapply rtc_l.
Qed.

(** *** Favorite toggle *)

Lemma map_get_set_other {A} k k' (v : A) m :
  k ≠ k' → JS.map_get k' (JS.map_set k v m) = JS.map_get k' m.
Proof.
  intros Hne. induction m as [| [k0 v0] m IH]; simpl.
  - by rewrite decide_False.
  - case_decide; simpl.
    + subst k0. by rewrite !decide_False.
    + case_decide; [done | apply IH].
Qed.

Lemma map_set_names {A} k (v v0 : A) m :
  JS.map_get k m = Some v0 → (JS.map_set k v m).*1 = m.*1.
Proof.
  induction m as [| [k' v'] m IH]; [done |]. simpl.
  case_decide; [done |]. intros Hget. simpl. f_equal. by apply IH.
Qed.

Lemma map_set_overwrite {A} k (v v' : A) m :
  JS.map_set k v' (JS.map_set k v m) = JS.map_set k v' m.
Proof.
  induction m as [| [k0 v0] m IH]; simpl.
  - by rewrite decide_True.
  - case_decide; simpl; [by rewrite decide_True |].
    rewrite decide_False by done. by rewrite IH.
Qed.

Lemma map_set_same {A} k (v : A) m :
  JS.map_get k m = Some v → JS.map_set k v m = m.
Proof.
  induction m as [| [k0 v0] m IH]; simpl; [done |].
  case_decide; [by intros [= ->] |]. intros Hget. by rewrite IH.
Qed.

Lemma reselect_frame (w2 : App) :
  let w3 :=
    if decide (selectedSliceName (sliceService w2) = FAVORITES_SLICE_NAME)
    then selectNamedSlice FAVORITES_SLICE_NAME w2 else w2 in
  appState w3 = appState w2
  ∧ referenceSelectionService w3 = referenceSelectionService w2
  ∧ namedSlices (sliceService w3) = namedSlices (sliceService w2)
  ∧ selectedSliceName (sliceService w3) = selectedSliceName (sliceService w2).
Proof.
  simpl. case_decide as E; [| done].
  rewrite namedSlices_selectNamedSlice, selectedSliceName_selectNamedSlice.
  unfold selectNamedSlice.
  by destruct (JS.map_get FAVORITES_SLICE_NAME (namedSlices (sliceService w2))).
Qed.

(** X12: a toggle writes nothing but the favorite flag of the row of the
    primary selection, the favorites slice and, through it, the
    selection: the number of rows, their identifiers and parents, the
    flags of the other rows, the comparison mode, the reference
    selection, the names of the slices and their order, the active
    slice name and the slices with another name are as before. *)
Theorem toggleFavorited_frame (t : LitSelectionToolbar) :
  let w := toolbar_app t in
  let w' := toolbar_app (toggleFavorited t) in
  id <$> currentInputData (appState w') = id <$> currentInputData (appState w)
  ∧ (parentId ∘ meta) <$> currentInputData (appState w')
    = (parentId ∘ meta) <$> currentInputData (appState w)
  ∧ (∀ j, primarySelectedIndex w ≠ Some j →
          currentInputData (appState w') !! j
          = currentInputData (appState w) !! j)
  ∧ compareExamplesEnabled (appState w') = compareExamplesEnabled (appState w)
  ∧ referenceSelectionService w' = referenceSelectionService w
  ∧ sliceNames (sliceService w') = sliceNames (sliceService w)
  ∧ selectedSliceName (sliceService w') = selectedSliceName (sliceService w)
  ∧ (∀ name, name ≠ FAVORITES_SLICE_NAME →
             JS.map_get name (namedSlices (sliceService w'))
             = JS.map_get name (namedSlices (sliceService w))).
Proof.
  intros w w'. subst w'. unfold toggleFavorited. fold w.
  destruct (primarySelectedIndex w) as [n |] eqn:Hn;
    [| by split_and!].
  destruct (currentInputData (appState w) !! n) as [data |] eqn:Hrow;
    [| by split_and!].
  destruct (isFavorited (meta data)) as [b |] eqn:Hb; [| by split_and!].
  set (f := λ d, {| id := id d;
                    meta := {| parentId := parentId (meta d);
                               isFavorited := Some (negb b) |} |}).
  assert (id <$> alter f n (currentInputData (appState w))
          = id <$> currentInputData (appState w)) as Hids.
  { apply list_eq. intros j. rewrite !list_lookup_fmap, list_lookup_alter.
    case_decide; [subst j | done].
    by destruct (currentInputData (appState w) !! n). }
  assert ((parentId ∘ meta) <$> alter f n (currentInputData (appState w))
          = (parentId ∘ meta) <$> currentInputData (appState w)) as Hparents.
  { apply list_eq. intros j. rewrite !list_lookup_fmap, list_lookup_alter.
    case_decide; [subst j | done].
    by destruct (currentInputData (appState w) !! n). }
  assert (∀ j, Some n ≠ Some j →
               alter f n (currentInputData (appState w)) !! j
               = currentInputData (appState w) !! j) as Hother.
  { intros j Hj. apply list_lookup_alter_ne. congruence. }
  assert (∀ g : list string → list string,
            let sl := sliceService w in
            let sl' :=
              match JS.map_get FAVORITES_SLICE_NAME (namedSlices sl) with
              | Some members =>
                  {| namedSlices :=
                       JS.map_set FAVORITES_SLICE_NAME (g members)
                         (namedSlices sl);
                     selectedSliceName := selectedSliceName sl |}
              | None => sl
              end in
            sliceNames sl' = sliceNames sl
            ∧ selectedSliceName sl' = selectedSliceName sl
            ∧ ∀ name, name ≠ FAVORITES_SLICE_NAME →
                      JS.map_get name (namedSlices sl')
                      = JS.map_get name (namedSlices sl)) as Hslices.
  { intros g sl sl'. subst sl'.
    destruct (JS.map_get FAVORITES_SLICE_NAME (namedSlices sl)) as [ms |] eqn:E;
      [| done].
    split_and!; [| done |].
    - unfold sliceNames. simpl. by apply (map_set_names _ _ ms).
    - intros name Hname. simpl. by apply map_get_set_other. }
  destruct b; simpl;
    unfold with_slices, addIdsToSlice, removeIdsFromSlice; simpl;
    match goal with
    | |- context [if decide _ then selectNamedSlice _ ?w2 else _] =>
        destruct (reselect_frame w2) as (A1 & A2 & A3 & A4)
    end;
    simpl in A1, A2, A3, A4; unfold sliceNames; rewrite A1, A2, A3, A4;
    simpl.
  - destruct (Hslices (λ m, JS.set_delete (id data) m)) as (Hn1 & Hn2 & Hn3).
    by split_and!.
  - destruct (Hslices (λ m, JS.set_add (id data) m)) as (Hn1 & Hn2 & Hn3).
    by split_and!.
Qed.

Lemma set_delete_absent (x : string) (l : list string) :
  x ∉ l → JS.set_delete x l = l.
Proof.
  unfold JS.set_delete. induction l as [| y l IH]; intros Hx; [done |].
  apply not_elem_of_cons in Hx as [Hne Hx].
  rewrite filter_cons_True by congruence. by rewrite IH.
Qed.

Lemma set_delete_add (x : string) (l : list string) :
  x ∉ l → JS.set_delete x (JS.set_add x l) = l.
Proof.
  intros Hx. unfold JS.set_add. rewrite decide_False by done.
  unfold JS.set_delete. rewrite filter_app.
  fold (JS.set_delete x l). rewrite set_delete_absent by done.
  rewrite filter_cons_False by (by intros ?). by rewrite app_nil_r.
Qed.

(** X13: while the favorites slice is not the active one, two toggles of
    an example that is neither flagged nor a member of the favorites
    slice lead back to the rows, the slices and the selections they
    started from. *)
Theorem toggleFavorited_twice_restores
    (t : LitSelectionToolbar) (data : IndexedInput) (members : list string) :
  primarySelectedInputData (toolbar_app t) = Some data →
  isFavorited (meta data) = Some false →
  favoritesMembers (toolbar_app t) = Some members →
  id data ∉ members →
  selectedSliceName (sliceService (toolbar_app t)) ≠ FAVORITES_SLICE_NAME →
  toolbar_app (toggleFavorited (toggleFavorited t)) = toolbar_app t.
Proof.
  intros Hdata Hflag Hm Hnotin Hact.
  destruct (primarySelectedInputData_Some _ _ Hdata)
    as (n & Hn & Hrow & Hidx & Hprim).
  pose proof (toggleFavorited_step t n data false members Hn Hrow Hflag Hm)
    as E1. simpl in E1. rewrite decide_False in E1 by done.
  set (t1 := toggleFavorited t) in *.
  set (d1 := {| id := id data;
               meta := {| parentId := parentId (meta data);
                          isFavorited := Some true |} |}).
  assert (primarySelectedIndex (toolbar_app t1) = Some n) as Hn1.
  { unfold primarySelectedIndex. rewrite E1. simpl. rewrite Hprim. simpl.
    by rewrite indicesById_setFavorited. }
  assert (currentInputData (appState (toolbar_app t1)) !! n = Some d1) as Hrow1.
  { rewrite E1. simpl. by rewrite list_lookup_alter_eq, Hrow. }
  assert (favoritesMembers (toolbar_app t1)
          = Some (JS.set_add (id data) members)) as Hm1.
  { rewrite E1. unfold favoritesMembers. simpl. apply map_get_set_eq. }
  rewrite (toggleFavorited_step t1 n d1 true _ Hn1 Hrow1 eq_refl Hm1).
  simpl. rewrite E1. simpl. rewrite decide_False by done.
  rewrite set_delete_add, map_set_overwrite, map_set_same by done.
  destruct t as [[a sel ref sl] hl]. simpl in *. f_equal.
  - destruct a as [rows cmp]. unfold setFavorited. simpl. f_equal.
    apply list_eq. intros j. simpl in Hrow.
    rewrite !list_lookup_alter. case_decide; [subst j | done].
    rewrite Hrow. simpl. destruct data as [i [pa fl]]. simpl in *.
    rewrite decide_True by done. simpl. by rewrite Hflag.
  - by destruct sl.
Qed.

(** X14: a toggle keeps the favorite flags of the rows and the favorites
    slice in agreement, when the identifiers of the rows are unique: if
    before the toggle a row is flagged exactly when its identifier is a
    member of the favorites slice, then so it is after the toggle. *)
Theorem toggleFavorited_keeps_consistency (t : LitSelectionToolbar) :
  NoDup (id <$> currentInputData (appState (toolbar_app t))) →
  favorites_consistent (toolbar_app t) →
  favorites_consistent (toolbar_app (toggleFavorited t)).
Proof.
  intros Hu (members & Hm & Hcons).
  destruct (primarySelectedIndex (toolbar_app t)) as [n |] eqn:Hn;
    [| unfold toggleFavorited; rewrite Hn; by exists members].
  destruct (currentInputData (appState (toolbar_app t)) !! n) as [data |]
    eqn:Hrow;
    [| unfold toggleFavorited; rewrite Hn, Hrow; by exists members].
  destruct (isFavorited (meta data)) as [b |] eqn:Hb;
    [| unfold toggleFavorited; rewrite Hn, Hrow, Hb; by exists members].
  rewrite (toggleFavorited_step t n data b members Hn Hrow Hb Hm). simpl.
  eexists. split; [unfold favoritesMembers; simpl; apply map_get_set_eq |].
  intros d' [j Hj]%list_elem_of_lookup. simpl in Hj.
  rewrite list_lookup_alter in Hj. case_decide as Ej.
  - subst j. rewrite Hrow in Hj. simpl in Hj. injection Hj as <-. simpl.
    destruct b; simpl.
    + rewrite set_delete_elem. split; [done | by intros [_ ?]].
    + rewrite set_add_elem. split; [by left | done].
  - assert (d' ∈ currentInputData (appState (toolbar_app t))) as Hd'
      by (by apply list_elem_of_lookup_2 in Hj).
    assert (id d' ≠ id data) as Hne.
    { intros Heq. apply Ej.
      apply (NoDup_lookup _ _ _ (id data) Hu);
        rewrite list_lookup_fmap, ?Hj, ?Hrow; simpl; congruence. }
    rewrite (Hcons d' Hd'). destruct b; simpl.
    + rewrite set_delete_elem. tauto.
    + rewrite set_add_elem. tauto.
Qed.

(** *** Slice editor *)

(** X15: whenever the create button is enabled the name input is
    editable. *)
Theorem createButtonEnabled_editable (m : SliceModule) :
  JS.truthy (createButtonEnabled m) = true →
  JS.truthy (sliceNameInputEditable m) = true.
Proof.
  unfold createButtonEnabled, sliceNameInputEditable.
  rewrite !truthy_or, !truthy_and, !orb_true_iff, !andb_true_iff. simpl.
  rewrite !bool_decide_eq_true. intros [[_ Hboxes] | [_ Hsel]];auto.
Qed.

Lemma map_set_fresh {A} k (v : A) m :
  k ∉ m.*1 → JS.map_set k v m = m ++ [(k, v)].
Proof.
  induction m as [| [k' v'] m IH]; [done |]. simpl.
  intros [Hne Hk]%not_elem_of_cons.
  rewrite decide_False by done. by rewrite IH.
Qed.

Lemma map_get_app_fresh {A} k (v : A) m m' :
  k ∉ m.*1 → JS.map_get k (m ++ (k, v) :: m') = Some v.
Proof.
  induction m as [| [k' v'] m IH]; simpl.
  - intros _. by rewrite decide_True.
  - intros [Hne Hk]%not_elem_of_cons. rewrite decide_False by done. auto.
Qed.

Lemma map_delete_fresh {A} k (m : list (string * A)) :
  k ∉ m.*1 → JS.map_delete k m = m.
Proof.
  unfold JS.map_delete. induction m as [| [k' v'] m IH]; [done |]. simpl.
  intros [Hne Hk]%not_elem_of_cons.
  rewrite filter_cons_True by (simpl; congruence). by rewrite IH.
Qed.

Lemma lastCreatedSlice_last (w : App) :
  lastCreatedSlice w = last (sliceNames (sliceService w)).
Proof.
  unfold lastCreatedSlice. rewrite last_lookup.
  destruct (sliceNames (sliceService w)) as [| x l]; [done |].
  replace (Z.of_nat (length (x :: l)) - 1) with (Z.of_nat (length l))
    by (simpl; lia).
  by rewrite at_index_of_nat.
Qed.

Lemma makeSlices_fold (prefix : string)
    (groups : list (string * list IndexedInput)) (w : App) :
  let entries :=
    (λ group, (prefix +:+ "  " +:+ group.1, JS.set_of (id <$> group.2)))
      <$> groups in
  let w' :=
    foldl (λ w group,
             with_slices
               (addNamedSlice (prefix +:+ "  " +:+ group.1) (id <$> group.2)) w)
      w groups in
  NoDup (sliceNames (sliceService w) ++ entries.*1) →
  w' = with_slices
         (λ s, {| namedSlices := namedSlices s ++ entries;
                  selectedSliceName := selectedSliceName s |}) w.
Proof.
  revert w. induction groups as [| [g rows] groups IH]; intros w; simpl.
  - intros _. destruct w as [a sel ref [sl act]]. unfold with_slices. simpl.
    by rewrite app_nil_r.
  - intros Hnd. rewrite IH.
    + unfold with_slices, addNamedSlice. simpl. do 2 f_equal.
      rewrite map_set_fresh, <- app_assoc; [done |].
      apply NoDup_app in Hnd as (_ & Hd & _). intros Hin.
      apply (Hd _ Hin). apply list_elem_of_here.
    + unfold sliceNames, with_slices, addNamedSlice. simpl.
      rewrite map_set_fresh.
      * rewrite fmap_app, <- app_assoc. done.
      * apply NoDup_app in Hnd as (_ & Hd & _). intros Hin.
        apply (Hd _ Hin). apply list_elem_of_here.
Qed.

(** X16: with a feature checkbox checked and names that are new and
    distinct, the create action appends one slice per group, named by the
    prefix, two blanks and the group name, with the identifiers of the
    rows of the group as members; it makes the slice of the last group
    the selected slice, its members the selection, and empties the name
    input and the checkbox list. *)
Theorem create_slices_from_features
    (m : SliceModule) (gs : list (string * list IndexedInput))
    (g : string) (rows : list IndexedInput) :
  let w := module_app m in
  let entries :=
    (λ group, (sliceName m +:+ "  " +:+ group.1, JS.set_of (id <$> group.2)))
      <$> (gs ++ [(g, rows)]) in
  sliceByFeatures m ≠ [] →
  groupExamplesByFeatures (selectedOrAllInputData w) (sliceByFeatures m)
  = gs ++ [(g, rows)] →
  NoDup (sliceNames (sliceService w) ++ entries.*1) →
  ∃ m',
    handleClickCreate m = Some m'
    ∧ namedSlices (sliceService (module_app m'))
      = namedSlices (sliceService w) ++ entries
    ∧ selectedSliceName (sliceService (module_app m'))
      = sliceName m +:+ "  " +:+ g
    ∧ selectedIds (selectionService (module_app m')) = JS.set_of (id <$> rows)
    ∧ sliceName m' = ""
    ∧ sliceByFeatures m' = [].
Proof.
  intros w entries Hboxes Hgroups Hnd.
  assert (makeSlicesFromAllLabelCombos m
          = with_slices
              (λ s, {| namedSlices := namedSlices s ++ entries;
                       selectedSliceName := selectedSliceName s |}) w) as Hmake.
  { unfold makeSlicesFromAllLabelCombos. fold w. rewrite Hgroups.
    by apply makeSlices_fold. }
  assert (entries
          = ((λ group, (sliceName m +:+ "  " +:+ group.1,
                        JS.set_of (id <$> group.2))) <$> gs)
            ++ [(sliceName m +:+ "  " +:+ g, JS.set_of (id <$> rows))])
    as Hentries by (unfold entries; by rewrite fmap_app).
  unfold handleClickCreate.
  replace (JS.truthy (anyCheckboxChecked m)) with true
    by (symmetry; by apply truthy_anyCheckboxChecked).
  set (name_g := sliceName m +:+ "  " +:+ g) in *.
  assert (name_g ∉ (namedSlices (sliceService w)
                    ++ ((λ group, (sliceName m +:+ "  " +:+ group.1,
                                   JS.set_of (id <$> group.2))) <$> gs)).*1)
    as Hfresh.
  { rewrite Hentries, fmap_app, app_assoc in Hnd. unfold sliceNames in Hnd.
    apply NoDup_app in Hnd as (_ & Hd & _). rewrite fmap_app. intros Hin.
    apply (Hd _ Hin). simpl. apply list_elem_of_here. }
  assert (last ((namedSlices (sliceService w) ++ entries).*1) = Some name_g)
    as Hlast.
  { rewrite Hentries, app_assoc, fmap_app. apply last_snoc. }
  assert (JS.map_get name_g (namedSlices (sliceService w) ++ entries)
          = Some (JS.set_of (id <$> rows))) as Hget.
  { rewrite Hentries, app_assoc. by apply map_get_app_fresh. }
  rewrite Hmake, lastCreatedSlice_last.
  unfold sliceNames at 1. simpl. rewrite Hlast. simpl.
  unfold selectSlice, selectNamedSlice. simpl. rewrite Hget.
  eexists. split_and!; try reflexivity. simpl.
  apply set_of_id, set_of_NoDup.
Qed.

(** X17: with a feature checkbox checked and no group to make a slice
    of, the create action adds no slice and hands the last of the
    existing slice names to [selectSlice]; when no slice is stored, the
    name is [undefined], it goes to the slice service as it is, and the
    name input and the checkbox list are reset over the state that this
    call leaves. *)
Theorem create_without_groups (m : SliceModule) :
  let w := module_app m in
  sliceByFeatures m ≠ [] →
  groupExamplesByFeatures (selectedOrAllInputData w) (sliceByFeatures m) = [] →
  (∀ name, last (sliceNames (sliceService w)) = Some name →
           handleClickCreate m
           = Some {| module_app := selectSlice name w;
                     sliceByFeatures := [];
                     sliceName := "" |})
  ∧ (sliceNames (sliceService w) = [] →
     ∀ w', selectNamedSliceUndefined w = Some w' →
           handleClickCreate m
           = Some {| module_app := w';
                     sliceByFeatures := [];
                     sliceName := "" |}).
Proof.
  intros w Hboxes Hgroups.
  assert (makeSlicesFromAllLabelCombos m = w) as Hmake.
  { unfold makeSlicesFromAllLabelCombos. fold w. by rewrite Hgroups. }
  unfold handleClickCreate.
  replace (JS.truthy (anyCheckboxChecked m)) with true
    by (symmetry; by apply truthy_anyCheckboxChecked).
  rewrite Hmake, lastCreatedSlice_last. split.
  - intros name ->. done.
  - intros -> w' ->. done.
Qed.

(** X18: a click on the enabled delete button removes the active slice
    and no other: the active name has no slice afterwards, every other
    name has the slice it had, the favorites slice among them, and the
    name input and the checkbox list are as before. *)
Theorem delete_removes_active_slice (m : SliceModule) :
  let active := selectedSliceName (sliceService (module_app m)) in
  let m' := clickDelete m in
  deleteButtonEnabled m = true →
  JS.map_get active (namedSlices (sliceService (module_app m'))) = None
  ∧ (∀ name, name ≠ active →
             JS.map_get name (namedSlices (sliceService (module_app m')))
             = JS.map_get name (namedSlices (sliceService (module_app m))))
  ∧ favoritesMembers (module_app m') = favoritesMembers (module_app m)
  ∧ sliceByFeatures m' = sliceByFeatures m
  ∧ sliceName m' = sliceName m.
Proof.
  intros active m' Hen. subst m'. unfold clickDelete. rewrite Hen.
  unfold deleteButtonEnabled in Hen.
  apply andb_true_iff in Hen as [_ Hfav%bool_decide_eq_true]. fold active in Hfav.
  unfold deleteSlice, selectSlice, favoritesMembers. simpl.
  rewrite namedSlices_selectNamedSlice. simpl. fold active.
  unfold deleteNamedSlice. rewrite decide_False by done. simpl.
  split_and!; [apply map_get_delete_eq | | | done | done].
  - intros name Hname. by apply map_get_delete_ne.
  - by apply map_get_delete_ne.
Qed.

(** X19: a slice made by the create action from the selection under a
    new name, and deleted right away, leaves the slices as they were
    before the two actions, with no slice active. *)
Theorem create_then_delete_restores (m : SliceModule) :
  sliceByFeatures m = [] →
  sliceName m ≠ "" →
  sliceName m ≠ FAVORITES_SLICE_NAME →
  sliceName m ∉ sliceNames (sliceService (module_app m)) →
  ∃ m1,
    handleClickCreate m = Some m1
    ∧ deleteButtonEnabled m1 = true
    ∧ namedSlices (sliceService (module_app (clickDelete m1)))
      = namedSlices (sliceService (module_app m))
    ∧ selectedSliceName (sliceService (module_app (clickDelete m1))) = "".
Proof.
  intros Hboxes Hname Hfav Hfresh.
  unfold handleClickCreate, anyCheckboxChecked. rewrite Hboxes. simpl.
  eexists. split; [reflexivity |].
  assert (deleteButtonEnabled
            {| module_app :=
                 selectSlice (sliceName m)
                   (with_slices
                      (addNamedSlice (sliceName m)
                         (selectedIds (selectionService (module_app m))))
                      (module_app m));
               sliceByFeatures := [];
               sliceName := "" |} = true) as Hen.
  { unfold deleteButtonEnabled, selectSlice. simpl.
    rewrite selectedSliceName_selectNamedSlice.
    apply andb_true_iff. split; by apply bool_decide_eq_true. }
  split; [exact Hen |].
  unfold clickDelete. rewrite Hen. unfold deleteSlice, selectSlice. simpl.
  rewrite !namedSlices_selectNamedSlice, !selectedSliceName_selectNamedSlice.
  split; [| done]. simpl. unfold deleteNamedSlice.
  rewrite decide_False by done. unfold with_slices, addNamedSlice. simpl.
  rewrite namedSlices_selectNamedSlice. simpl.
  unfold sliceNames in Hfresh.
  rewrite map_set_fresh by done. unfold JS.map_delete.
  rewrite filter_app. fold (JS.map_delete (sliceName m)
                              (namedSlices (sliceService (module_app m)))).
  rewrite map_delete_fresh by done.
  rewrite filter_cons_False by (simpl; by intros ?). by rewrite app_nil_r.
Qed.

(** X20: a click on the item of a slice that is not the active one makes
    it the active slice, and a second click on the same item leaves no
    slice active; the slices themselves are as before. *)
Theorem itemClicked_toggles (name : string) (m : SliceModule) :
  selectedSliceName (sliceService (module_app m)) ≠ name →
  selectedSliceName (sliceService (module_app (itemClicked name m))) = name
  ∧ selectedSliceName
      (sliceService (module_app (itemClicked name (itemClicked name m)))) = ""
  ∧ namedSlices
      (sliceService (module_app (itemClicked name (itemClicked name m))))
    = namedSlices (sliceService (module_app m)).
Proof.
  intros Hact.
  assert (selectedSliceName (sliceService (module_app (itemClicked name m)))
          = name) as Hfirst.
  { unfold itemClicked, selectSlice. simpl.
    rewrite selectedSliceName_selectNamedSlice. by rewrite decide_False. }
  split; [done |].
  unfold itemClicked at 1 3. unfold selectSlice. cbn [module_app].
  rewrite selectedSliceName_selectNamedSlice, namedSlices_selectNamedSlice.
  rewrite Hfirst, decide_True by done. split; [done |].
  unfold itemClicked, selectSlice. simpl.
  by rewrite namedSlices_selectNamedSlice.
Qed.

Lemma indexOf_first (key : string) (l1 l2 : list string) :
  key ∉ l1 → JSArray.indexOf key (l1 ++ key :: l2) = Z.of_nat (length l1).
Proof.
  intros Hkey. unfold JSArray.indexOf, JS.findIndex.
  rewrite (findIndex_from_first _ _ (length l1) key); [lia | | |].
  - by rewrite list_lookup_middle.
  - by apply bool_decide_eq_true.
  - intros j y Hj Hy. apply bool_decide_eq_false. intros ->.
    rewrite lookup_app_l in Hy by done.
    by apply list_elem_of_lookup_2 in Hy.
Qed.

(** X21: unchecking a feature removes its first entry from the checkbox
    list and keeps the other entries in their order; so checking a
    feature that is not in the list and unchecking it again leaves the
    widget as it was. *)
Theorem onChange_uncheck (key : string) (m : SliceModule)
    (l1 l2 : list string) :
  key ∉ l1 →
  (sliceByFeatures m = l1 ++ key :: l2 →
   sliceByFeatures (onChange false key m) = l1 ++ l2)
  ∧ (sliceByFeatures m = l1 →
     onChange false key (onChange true key m) = m).
Proof.
  intros Hkey.
  assert (∀ l2', JSArray.splice1 (JSArray.indexOf key (l1 ++ key :: l2'))
                   (l1 ++ key :: l2') = l1 ++ l2') as Hsplice.
  { intros l2'. rewrite indexOf_first by done. unfold JSArray.splice1.
    replace (Z.of_nat (length l1) <? 0) with false
      by (symmetry; apply Z.ltb_ge; lia).
    rewrite Z.min_l by (rewrite length_app; simpl; lia).
    rewrite Nat2Z.id. apply delete_middle. }
  split.
  - intros Hl. unfold onChange. simpl. rewrite Hl. apply Hsplice.
  - intros Hl. unfold onChange. simpl. rewrite Hl, Hsplice, app_nil_r.
    destruct m. simpl in *. by subst.
Qed.

(** X22: unchecking a feature that is not in the checkbox list removes
    the last entry of the list, which [splice] reaches through the index
    [-1]; the empty list stays empty. *)
Theorem onChange_uncheck_absent (key : string) (m : SliceModule) :
  key ∉ sliceByFeatures m →
  (∀ l x, sliceByFeatures m = l ++ [x] →
          sliceByFeatures (onChange false key m) = l)
  ∧ (sliceByFeatures m = [] → sliceByFeatures (onChange false key m) = []).
Proof.
  intros Hkey.
  assert (JSArray.indexOf key (sliceByFeatures m) = -1) as Hidx.
  { apply findIndex_from_absent. intros y Hy.
    apply bool_decide_eq_false. by intros ->. }
  unfold onChange. simpl. rewrite Hidx. split.
  - intros l x ->. unfold JSArray.splice1. simpl.
    rewrite length_app. simpl.
    rewrite Z.max_l by lia.
    replace (Z.to_nat (Z.of_nat (length l + 1) + -1)) with (length l) by lia.
    rewrite (delete_middle l [] x). by rewrite app_nil_r.
  - intros ->. done.
Qed.

(** X23: [handleClickCreate] itself does not look at the predicate of
    the create button: with an empty name and no checkbox checked, where
    the button is disabled, it stores the selection as a slice under the
    empty name and selects it; the delete button is disabled afterwards,
    as the empty name is the name of no active slice. *)
Theorem handleClickCreate_empty_name (m : SliceModule) :
  sliceName m = "" →
  sliceByFeatures m = [] →
  JS.truthy (createButtonEnabled m) = false
  ∧ ∃ m',
      handleClickCreate m = Some m'
      ∧ JS.map_get "" (namedSlices (sliceService (module_app m')))
        = Some (JS.set_of (selectedIds (selectionService (module_app m))))
      ∧ selectedSliceName (sliceService (module_app m')) = ""
      ∧ deleteButtonEnabled m' = false.
Proof.
  intros Hname Hboxes. split.
  - unfold createButtonEnabled, anyCheckboxChecked.
    rewrite truthy_or, !truthy_and, Hname, Hboxes. simpl.
    by rewrite andb_false_r.
  - unfold handleClickCreate, anyCheckboxChecked. rewrite Hboxes, Hname. simpl.
    eexists. split; [reflexivity |].
    unfold deleteButtonEnabled, selectSlice. simpl.
    rewrite namedSlices_selectNamedSlice, selectedSliceName_selectNamedSlice.
    split_and!; [apply map_get_set_eq | done |].
    apply andb_false_iff. left. apply bool_decide_eq_false. by intros ?.
Qed.

End MoreProperties.

(** ** The further properties on the sample states *)

Lemma primary_paging_cycles_witness :
  primaryMovesTo (H := sample_collaborators) 1 sample_multi 2
  ∧ primaryMovesTo (H := sample_collaborators) (-1) sample_multi 0.
Proof.
  assert (NoDup (selectedIds (selectionService sample_multi))) as Hnd
    by by_decide.
  exact (@primary_paging_cycles sample_collaborators sample_multi "c" 1
           Hnd eq_refl eq_refl).
Defined.

Lemma primary_random_moves_witness :
  ∃ x w',
    primarySelectOffset (H := sample_collaborators) 2 sample_multi = Some w'
    ∧ primarySelectedId (selectionService w') = Some x
    ∧ x ∈ selectedIds (selectionService sample_multi)
    ∧ x ≠ "c".
Proof.
  assert (NoDup (selectedIds (selectionService sample_multi))) as Hnd
    by by_decide.
  apply (@primary_random_moves sample_collaborators sample_multi "c" 1 2
           Hnd eq_refl eq_refl); simpl; lia.
Defined.

Lemma primary_next_prev_round_trip_witness :
  primarySelectOffset (H := sample_collaborators) 1 sample_multi
    ≫= primarySelectOffset (H := sample_collaborators) (-1)
  = Some sample_multi
  ∧ primarySelectOffset (H := sample_collaborators) (-1) sample_multi
      ≫= primarySelectOffset (H := sample_collaborators) 1
    = Some sample_multi.
Proof.
  assert (NoDup (selectedIds (selectionService sample_multi))) as Hnd
    by by_decide.
  exact (@primary_next_prev_round_trip sample_collaborators sample_multi
           "c" 1 Hnd eq_refl eq_refl).
Defined.

Lemma dataset_random_moves_witness :
  ∃ next w',
    datasetSelectOffset (H := sample_collaborators) 3 (sample_paging "")
    = Some w'
    ∧ next ∈ sample_abcde
    ∧ selectedIds (selectionService w') = [id next]
    ∧ id next ≠ "c".
Proof.
  assert (NoDup (id <$> sample_abcde)) as Hu by by_decide.
  apply (@dataset_random_moves sample_collaborators (sample_paging "")
           "c" 2 (sample_row "c" None (Some false)) 3
           Hu eq_refl eq_refl eq_refl); simpl; lia.
Defined.

Lemma dataset_paging_total_witness :
  ∃ next,
    next ∈ sample_abcde
    ∧ datasetSelectOffset (H := sample_collaborators) (-1) sample_unselected
      = Some (with_selection (selectIds (H := sample_collaborators) [id next])
                sample_unselected).
Proof.
  apply (@dataset_paging_total sample_collaborators sample_unselected (-1));
    [discriminate | lia].
Defined.

Lemma dataset_paging_primary_missing_witness :
  datasetSelectOffset (H := sample_collaborators) 1 sample_unselected
  = Some (with_selection (selectIds (H := sample_collaborators) ["a"])
            sample_unselected)
  ∧ datasetSelectOffset (H := sample_collaborators) (-1) sample_unselected
    = Some (with_selection (selectIds (H := sample_collaborators) ["d"])
              sample_unselected).
Proof.
  destruct (@dataset_paging_primary_missing sample_collaborators
              sample_unselected (sample_row "a" None (Some false))
              (tail sample_abcde)) as (Hnext & _ & Hprev).
  - intros d _. discriminate.
  - reflexivity.
  - split; [exact Hnext |].
    apply (Hprev (sample_row "d" None (Some false)) eq_refl). discriminate.
Defined.

Lemma pair_paging_cycles_witness :
  pairMovesTo (H := sample_collaborators) 1 sample_pair_selected 1
  ∧ pairMovesTo (H := sample_collaborators) (-1) sample_pair_selected 1.
Proof.
  assert (NoDup (selectedIdPairs sample_pair_selected)) as Hnd by by_decide.
  exact (@pair_paging_cycles sample_collaborators sample_pair_selected 0
           "child1" "parent1" Hnd eq_refl eq_refl eq_refl).
Defined.

Lemma pair_paging_unselected_witness :
  pairMovesTo (H := sample_collaborators) 1 sample_pairing 1
  ∧ pairMovesTo (H := sample_collaborators) (-1) sample_pairing 1.
Proof.
  apply (@pair_paging_unselected sample_collaborators sample_pairing);
    [reflexivity | discriminate].
Defined.

Lemma pair_list_stable_witness :
  let w' := default sample_pairing
              (pairSelectOffset (H := sample_collaborators) 1 sample_pairing) in
  ("child1", "parent1") ∈ selectedIdPairs w'
  ↔ ("child1", "parent1") ∈ selectedIdPairs sample_pairing.
Proof.
  intros w'.
  assert (NoDup (id <$> sample_pairs)) as Hu by by_decide.
  apply (@pair_list_stable sample_collaborators sample_pairing w' 1 Hu eq_refl).
  vm_compute. reflexivity.
Defined.

Lemma selectRelated_parent_closed_witness :
  "b" ∈ selectedIds (selectionService
                       (selectRelated (H := sample_collaborators)
                          (sample_app sample_lineage
                             (sample_selection ["c"] (Some "c")) sample_none
                             [("Favorites", [])] ""))).
Proof.
  apply (@selectRelated_parent_closed sample_collaborators _ "c" "b");
    [by_decide | vm_compute; reflexivity].
Defined.

Lemma toggleFavorited_twice_restores_witness :
  let t := {| toolbar_app := sample_paging ""; highlightFavorite := false |} in
  toolbar_app (toggleFavorited (H := sample_collaborators)
                 (toggleFavorited (H := sample_collaborators) t))
  = toolbar_app t.
Proof.
  intros t.
  apply (@toggleFavorited_twice_restores sample_collaborators t
           (sample_row "c" None (Some false)) ["a"] eq_refl eq_refl eq_refl);
    [by_decide | discriminate].
Defined.

Lemma toggleFavorited_keeps_consistency_witness :
  favorites_consistent (H := sample_collaborators)
    (toolbar_app
       (toggleFavorited (H := sample_collaborators)
          {| toolbar_app := sample_multi; highlightFavorite := false |})).
Proof.
  apply (@toggleFavorited_keeps_consistency sample_collaborators).
  - by_decide.
  - exists []. split; [reflexivity |]. intros d Hd.
    unfold sample_multi, sample_app, sample_abcde in Hd. simpl in Hd.
    repeat (apply elem_of_cons in Hd as [-> | Hd]);
      try (by apply elem_of_nil in Hd);
      (split; [discriminate | intros Hin; by apply elem_of_nil in Hin]).
Defined.

Lemma createButtonEnabled_editable_witness :
  JS.truthy (sliceNameInputEditable sample_editor) = true.
Proof.
  apply createButtonEnabled_editable. vm_compute. reflexivity.
Defined.

Lemma create_slices_from_features_witness :
  ∃ m',
    handleClickCreate (H := sample_grouping) sample_editor_features = Some m'
    ∧ namedSlices (sliceService (module_app m'))
      = [("Favorites", []); ("by  all", ["a"; "b"; "c"; "d"; "e"])]
    ∧ selectedSliceName (sliceService (module_app m')) = "by  all".
Proof.
  destruct (@create_slices_from_features sample_grouping
              sample_editor_features [] "all" sample_abcde)
    as (m' & Hcreate & Hslices & Hact & _).
  - discriminate.
  - reflexivity.
  - by_decide.
  - exists m'. split_and!; [exact Hcreate | | exact Hact].
    rewrite Hslices. vm_compute. reflexivity.
Defined.

Lemma create_without_groups_witness :
  let m0 := {| module_app :=
                 sample_app sample_abcde sample_none sample_none [] "";
               sliceByFeatures := ["label"];
               sliceName := "by" |} in
  handleClickCreate (H := sample_collaborators) sample_editor_features
  = Some {| module_app :=
              selectSlice (H := sample_collaborators) "Favorites"
                sample_unselected;
            sliceByFeatures := [];
            sliceName := "" |}
  ∧ handleClickCreate (H := sample_collaborators) m0
    = Some {| module_app := module_app m0;
              sliceByFeatures := [];
              sliceName := "" |}.
Proof.
  intros m0. split.
  - destruct (@create_without_groups sample_collaborators
                sample_editor_features) as [Hlast _];
      [discriminate | reflexivity |].
    apply Hlast. reflexivity.
  - destruct (@create_without_groups sample_collaborators m0) as [_ Hnone];
      [discriminate | reflexivity |].
    apply Hnone; reflexivity.
Defined.

Lemma delete_removes_active_slice_witness :
  JS.map_get "mine"
    (namedSlices
       (sliceService
          (module_app (clickDelete (H := sample_collaborators)
                         sample_editor_active)))) = None
  ∧ favoritesMembers (H := sample_collaborators)
      (module_app (clickDelete (H := sample_collaborators)
                     sample_editor_active)) = Some ["a"].
Proof.
  destruct (@delete_removes_active_slice sample_collaborators
              sample_editor_active) as (Hgone & _ & Hfav & _).
  - vm_compute. reflexivity.
  - split; [exact Hgone | exact Hfav].
Defined.

Lemma create_then_delete_restores_witness :
  ∃ m1,
    handleClickCreate (H := sample_collaborators) sample_editor = Some m1
    ∧ namedSlices (sliceService
                     (module_app (clickDelete (H := sample_collaborators) m1)))
      = [("Favorites", [])].
Proof.
  destruct (@create_then_delete_restores sample_collaborators sample_editor)
    as (m1 & Hcreate & _ & Hslices & _).
  - reflexivity.
  - discriminate.
  - discriminate.
  - by_decide.
  - exists m1. split; [exact Hcreate | exact Hslices].
Defined.

Lemma itemClicked_toggles_witness :
  selectedSliceName
    (sliceService
       (module_app (itemClicked (H := sample_collaborators) "Favorites"
                      sample_editor_active))) = "Favorites"
  ∧ selectedSliceName
      (sliceService
         (module_app
            (itemClicked (H := sample_collaborators) "Favorites"
               (itemClicked (H := sample_collaborators) "Favorites"
                  sample_editor_active)))) = "".
Proof.
  destruct (@itemClicked_toggles sample_collaborators "Favorites"
              sample_editor_active) as (Hfirst & Hsecond & _).
  - discriminate.
  - split; [exact Hfirst | exact Hsecond].
Defined.

Lemma onChange_uncheck_witness :
  sliceByFeatures (onChange false "y" sample_editor_active) = ["x"]
  ∧ onChange false "z" (onChange true "z" sample_editor_active)
    = sample_editor_active.
Proof.
  split.
  - destruct (onChange_uncheck "y" sample_editor_active ["x"] [])
      as [Hremove _]; [by_decide |].
    apply Hremove. reflexivity.
  - destruct (onChange_uncheck "z" sample_editor_active ["x"; "y"] [])
      as [_ Hround]; [by_decide |].
    apply Hround. reflexivity.
Defined.

Lemma onChange_uncheck_absent_witness :
  sliceByFeatures (onChange false "z" sample_editor_active) = ["x"].
Proof.
  destruct (onChange_uncheck_absent "z" sample_editor_active) as [Hlast _];
    [by_decide |].
  apply (Hlast ["x"] "y"). reflexivity.
Defined.

Lemma handleClickCreate_empty_name_witness :
  let m := {| module_app := module_app sample_editor_active;
              sliceByFeatures := [];
              sliceName := "" |} in
  JS.truthy (createButtonEnabled m) = false
  ∧ ∃ m',
      handleClickCreate (H := sample_collaborators) m = Some m'
      ∧ JS.map_get "" (namedSlices (sliceService (module_app m')))
        = Some ["b"]
      ∧ deleteButtonEnabled (H := sample_collaborators) m' = false.
Proof.
  intros m.
  destruct (@handleClickCreate_empty_name sample_collaborators m
              eq_refl eq_refl) as (Hdis & m' & Hcreate & Hget & _ & Hdel).
  split; [exact Hdis |].
  exists m'. split_and!; [exact Hcreate | exact Hget | exact Hdel].
Defined.
